(** * Netflix catalogue dashboard: the normalisation and aggregation pipeline

    A shallow embedding of [src/app.py].  The script is a chain of pandas
    calls over one data frame; every call is modelled here as a function on
    lists of rows, in the order the script makes them.

    Modelling conventions.
    - A data frame is the list of its rows, in index order.
    - A cell of a text column is [option string]: [None] is pandas' NaN.
    - Text is ASCII text; characters outside ASCII are not interpreted.
    - A call that can raise returns a [result]; the exception propagates
      through the rest of the chain, as it does in Python. *)

From Stdlib Require Import ZArith NArith Lia Ascii String DecimalString DecimalN DecimalPos.
From stdpp Require Import base tactics option list sets strings sorting.

Local Open Scope string_scope.
Local Open Scope Z_scope.
Set Warnings "-clear-no-such-hyp".

(** ** Exceptions *)

Inductive exn := ValueError | OverflowError.

Inductive result (A : Type) :=
  | Ok (a : A)
  | Raise (e : exn).
Arguments Ok {A} a.
Arguments Raise {A} e.

#[global] Instance result_ret : MRet result := fun _ a => Ok a.
#[global] Instance result_bind : MBind result := fun _ _ k r =>
  match r with
  | Ok a => k a
  | Raise e => Raise e
  end.

(** A loop that stops at the first element that raises, as numpy's
    element-wise conversions do. *)
Fixpoint map_result {A B} (f : A → result B) (l : list A) : result (list B) :=
  match l with
  | [] => Ok []
  | a :: l' => b ← f a; bs ← map_result f l'; Ok (b :: bs)
  end.

(** ** Python string primitives *)

Module Py.

(** [str.isspace] on ASCII: tab, newline, vertical tab, form feed, carriage
    return, the four separators 0x1c-0x1f, and the space. *)
Definition is_space (c : ascii) : bool :=
  let n := nat_of_ascii c in
  ((9 <=? n)%nat && (n <=? 13)%nat) || ((28 <=? n)%nat && (n <=? 32)%nat).

Definition is_digit (c : ascii) : bool :=
  let n := nat_of_ascii c in (48 <=? n)%nat && (n <=? 57)%nat.

Fixpoint lstrip (s : string) : string :=
  match s with
  | String c s' => if is_space c then lstrip s' else s
  | EmptyString => EmptyString
  end.

Fixpoint rstrip (s : string) : string :=
  match s with
  | String c s' =>
      match rstrip s' with
      | EmptyString => if is_space c then EmptyString else String c EmptyString
      | r => String c r
      end
  | EmptyString => EmptyString
  end.

Fixpoint only_digits (s : string) : bool :=
  match s with
  | String c s' => is_digit c && only_digits s'
  | EmptyString => true
  end.

(** [s.strip()] *)
Definition strip (s : string) : string := rstrip (lstrip s).

(** [s.replace(old, "")] for a non-empty [old]: the occurrences of [old]
    are found left to right without overlap and deleted.  [skip] counts the
    characters of the current occurrence still to be dropped. *)
Fixpoint delete_from (old s : string) (skip : nat) : string :=
  match s with
  | EmptyString => EmptyString
  | String c s' =>
      match skip with
      | S k => delete_from old s' k
      | O => if String.prefix old s
             then delete_from old s' (String.length old - 1)%nat
             else String c (delete_from old s' 0%nat)
      end
  end.

Definition delete (old s : string) : string := delete_from old s 0%nat.

(** [s.split(",")]: always at least one token. *)
Fixpoint split_comma (s : string) : list string :=
  match s with
  | EmptyString => [EmptyString]
  | String c s' =>
      if Ascii.eqb c ","%char then EmptyString :: split_comma s'
      else match split_comma s' with
           | t :: ts => String c t :: ts
           | [] => [String c EmptyString]
           end
  end.

(** The digits of an integer literal: decimal digits, with single
    underscores allowed between two digits.  [after_digit] tells whether the
    previous character was a digit.  The underscores are dropped. *)
Fixpoint literal_digits (s : string) (after_digit : bool) : option string :=
  match s with
  | EmptyString => if after_digit then Some EmptyString else None
  | String c s' =>
      if is_digit c then String c <$> literal_digits s' true
      else if Ascii.eqb c "_"%char
           then (if after_digit then literal_digits s' false else None)
           else None
  end.

Definition digits_value (ds : string) : option Z :=
  d ← NilEmpty.uint_of_string ds; Some (Z.of_N (N.of_uint d)).

(** [int(s)] for a [str]: surrounding whitespace is ignored, one sign is
    allowed, then comes a literal in base ten.  Anything else is a
    [ValueError]. *)
Definition int (s : string) : result Z :=
  let body := strip s in
  let '(negative, lit) :=
    match body with
    | String c r =>
        if Ascii.eqb c "-" then (true, r)
        else if Ascii.eqb c "+" then (false, r)
        else (false, body)
    | EmptyString => (false, body)
    end in
  match literal_digits lit false ≫= digits_value with
  | Some v => Ok (if negative then - v else v)
  | None => Raise ValueError
  end.

(** [str(n)] for a natural number: its decimal digits, no leading zero. *)
Definition str_of_N (n : N) : string := NilEmpty.string_of_uint (N.to_uint n).

End Py.

(** ** Data model *)

(** A cell of a text column: [None] is NaN. *)
Abbreviation cell := (option string) (only parsing).

(** One line of [netflix_titles.csv], as the fields are written in the file.
    [raw_others] holds the columns the script never reads (show_id, title,
    director, cast, release_year, description). *)
Record RawRecord := {
  raw_type : cell;
  raw_date_added : cell;
  raw_country : cell;
  raw_rating : cell;
  raw_duration : cell;
  raw_listed_in : cell;
  raw_others : list cell;
}.

#[global] Instance RawRecord_eq_dec : EqDecision RawRecord.
Proof. solve_decision. Defined.

(** A resolved calendar date (pandas' Timestamp); NaT is [None]. *)
Record Timestamp := { ts_year : Z; ts_month : Z; ts_day : Z }.

#[global] Instance Timestamp_eq_dec : EqDecision Timestamp.
Proof. solve_decision. Defined.

(** A row of the data frame [load_data] returns.  [index] is the row label
    pandas keeps through every step: the position of the line in the file. *)
Record CleanRecord := {
  index : nat;
  type : cell;
  date_added : option Timestamp;
  year_added : option Z;
  month_added : option Z;
  country : string;
  rating : string;
  duration : string;
  listed_in : cell;
  others : list cell;
}.

#[global] Instance CleanRecord_eq_dec : EqDecision CleanRecord.
Proof. solve_decision. Defined.

(** ** pandas primitives on columns *)

(** Keep the first row of every group of rows with the same [key], in
    order: [drop_duplicates] (key: the whole row) and [unique] (key: the
    value). *)
Fixpoint keep_first {A K} `{EqDecision K} (key : A → K) (l : list A) : list A :=
  match l with
  | [] => []
  | x :: l' => x :: filter (λ y, key y ≠ key x) (keep_first key l')
  end.

Definition unique {K} `{EqDecision K} (col : list K) : list K := keep_first id col.

(** [Series.fillna(v)] on a text column. *)
Definition fillna (v : string) (c : cell) : string := default v c.

(** [col.dropna()] *)
Definition dropna {K} (col : list (option K)) : list K := omap id col.


(** Number of occurrences of [k] in a column. *)
Definition occurrences {K} `{EqDecision K} (k : K) (col : list K) : nat :=
  length (filter (λ y, y = k) col).

(** The order of a table sorted by count, largest first. *)
Definition by_count {K} : relation (K * nat) := λ p q, (q.2 ≤ p.2)%nat.

(** [Series.sort_values(ascending=False)] as [value_counts] calls it.
    pandas sorts with numpy's default sort, which is not stable: the order
    in which entries with equal counts come out is that algorithm's, and it
    is not the same for every numpy.  The sort is therefore a parameter of
    the model: any function that permutes the table and leaves the counts in
    descending order. *)
Class CountSort := {
  sort_values : ∀ {K : Type}, list (K * nat) → list (K * nat);
  sort_values_perm {K} (l : list (K * nat)) : sort_values l ≡ₚ l;
  sort_values_sorted {K} (l : list (K * nat)) :
    StronglySorted by_count (sort_values l);
}.

(** [col.value_counts()] on a column without NaN: one (label, count) pair
    per distinct value, the values taken in order of first appearance, then
    sorted by count, largest first. *)
Definition value_counts {sort : CountSort} {K} `{EqDecision K}
    (col : list K) : list (K * nat) :=
  sort_values ((λ k, (k, occurrences k col)) <$> unique col).

(** Two sorts by count.  Both insert the pairs one by one into a list sorted
    by count, largest first.  [insert_by_count] puts a pair before the first
    entry whose count is not larger than its own, so that equal counts keep
    their order; [insert_after_ties] puts it before the first entry whose
    count is smaller, so that equal counts come out in reverse order. *)
Fixpoint insert_by_count {K} (p : K * nat) (l : list (K * nat)) : list (K * nat) :=
  match l with
  | [] => [p]
  | q :: l' => if (p.2 <? q.2)%nat then q :: insert_by_count p l' else p :: q :: l'
  end.

Definition sort_by_count {K} (l : list (K * nat)) : list (K * nat) :=
  foldr insert_by_count [] l.



Definition first_seen_sort : CountSort.
Proof.
  refine {| sort_values := @sort_by_count |}.
  - assert (∀ K (p : K * nat) l, insert_by_count p l ≡ₚ p :: l) as Hins.
    { intros K p l. induction l as [|q l IH]; [done|]. simpl.
      case_match; [|done]. rewrite IH. apply Permutation_swap. }
    intros K l. induction l as [|p l IH]; [done|]. simpl. by rewrite Hins, IH.
  - assert (∀ K (p : K * nat) l, insert_by_count p l ≡ₚ p :: l) as Hins.
    { intros K p l. induction l as [|q l IH]; [done|]. simpl.
      case_match; [|done]. rewrite IH. apply Permutation_swap. }
    intros K l. induction l as [|p l IH]; [constructor|]. simpl.
    induction IH as [|q l' Hl' IH' Hq]; simpl; [by repeat constructor|].
    destruct (p.2 <? q.2)%nat eqn:E.
    + apply Nat.ltb_lt in E. constructor; [done|].
      rewrite Hins. constructor; [unfold by_count; lia|done].
    + apply Nat.ltb_ge in E. constructor; [by constructor|].
      constructor; [done|]. eapply Forall_impl; [exact Hq|].
      unfold by_count. intros x ?. lia.
Defined.


(** [.head(n)] *)
Definition head {A} (n : nat) (l : list A) : list A := take n l.

(** ** Loading: [load_data] *)

(** The strings [pd.read_csv] reads as NaN by default. *)
Definition STR_NA_VALUES : list string :=
  [ ""; "#N/A"; "#N/A N/A"; "#NA"; "-1.#IND"; "-1.#QNAN"; "-NaN"; "-nan";
    "1.#IND"; "1.#QNAN"; "<NA>"; "N/A"; "NA"; "NULL"; "NaN"; "None"; "n/a";
    "nan"; "null" ].

Definition na_filter (c : cell) : cell :=
  match c with
  | Some s => if decide (s ∈ STR_NA_VALUES) then None else Some s
  | None => None
  end.

Definition read_row (x : RawRecord) : RawRecord :=
  {| raw_type := na_filter (raw_type x);
     raw_date_added := na_filter (raw_date_added x);
     raw_country := na_filter (raw_country x);
     raw_rating := na_filter (raw_rating x);
     raw_duration := na_filter (raw_duration x);
     raw_listed_in := na_filter (raw_listed_in x);
     raw_others := na_filter <$> raw_others x |}.

(** [pd.read_csv("netflix_titles.csv")]: the lines of the file, labelled
    0, 1, 2, ..., with the missing-value markers read as NaN. *)
Definition read_csv (csv : list RawRecord) : list (nat * RawRecord) :=
  imap (λ i x, (i, read_row x)) csv.

(** [df.drop_duplicates()]: rows are compared on all columns, the label is
    not part of the comparison. *)
Definition drop_duplicates (df : list (nat * RawRecord)) : list (nat * RawRecord) :=
  keep_first snd df.

(** [pd.to_datetime(col, errors='coerce')] is pandas' own date parser: it is
    a parameter of the model.  It maps a column of text to a column of
    dates of the same length, and what it cannot resolve becomes NaT; in
    particular NaN, and text that is empty or only whitespace. *)
Class DateParser := {
  to_datetime : list cell → list (option Timestamp);
  to_datetime_length col : length (to_datetime col) = length col;
  to_datetime_nan col i :
    col !! i = Some None → to_datetime col !! i = Some None;
  to_datetime_blank col i s :
    col !! i = Some (Some s) → Py.strip s = "" → to_datetime col !! i = Some None;
}.

(** The columns [load_data] assigns to one row that kept its date. *)
Definition normalize (p : nat * RawRecord * option Timestamp) : CleanRecord :=
  let '(i, x, d) := p in
  {| index := i;
     type := raw_type x;
     date_added := d;
     year_added := ts_year <$> d;
     month_added := ts_month <$> d;
     country := fillna "Unknown" (raw_country x);
     rating := fillna "Unknown" (raw_rating x);
     duration := fillna "Unknown" (raw_duration x);
     listed_in := raw_listed_in x;
     others := raw_others x |}.


Section Load.
Context `{DateParser}.

(** The parsed [date_added] column of the deduplicated frame (line 25). *)
Definition date_column (csv : list RawRecord) : list (option Timestamp) :=
  to_datetime ((raw_date_added ∘ snd) <$> drop_duplicates (read_csv csv)).

(** The deduplicated frame with its [date_added] column replaced. *)
Definition parsed (csv : list RawRecord) : list (nat * RawRecord * option Timestamp) :=
  zip (drop_duplicates (read_csv csv)) (date_column csv).

Definition load_data (csv : list RawRecord) : list CleanRecord :=
  let df := parsed csv in
  let df := filter (λ p, is_Some p.2) df in     (* dropna(subset=['date_added']) *)
  normalize <$> df.

End Load.

(** [missing_dates = df['date_added'].isna().sum()], on the frame
    [load_data] returned. *)
Definition missing_dates (df : list CleanRecord) : nat :=
  length (filter (λ r, date_added r = None) df).

(** Whether the script shows its warning. *)
Definition warning_shown (df : list CleanRecord) : bool :=
  (0 <? missing_dates df)%nat.

(** ** Filtering: [df_filtered] *)

Record FilterSpec := {
  year_filter : Z * Z;
  type_filter : list cell;
  country_filter : list string;
}.

(** [s.between(lo, hi, inclusive="both")] on one cell; NaN is never between. *)
Definition between (lo hi : Z) (y : option Z) : bool :=
  match y with
  | Some v => (lo <=? v) && (v <=? hi)
  | None => false
  end.

(** [s.isin(values)] on one cell. *)
Definition isin {K} `{EqDecision K} (values : list K) (v : K) : bool :=
  bool_decide (v ∈ values).

Definition keeps (spec : FilterSpec) (r : CleanRecord) : bool :=
  between (year_filter spec).1 (year_filter spec).2 (year_added r)
  && isin (type_filter spec) (type r)
  && isin (country_filter spec) (country r).

Definition df_filtered (spec : FilterSpec) (df : list CleanRecord) : list CleanRecord :=
  filter (λ r, keeps spec r = true) df.

(** ** Aggregations *)

(** [df_filtered['country'].value_counts().head(n)]; the script takes
    [n = 10]. *)
Definition topCountries {sort : CountSort} (n : nat) (df : list CleanRecord) :
    list (string * nat) :=
  head n (value_counts (country <$> df)).


(** [df_filtered['listed_in'].str.split(',').explode().str.strip()]: a NaN
    cell stays one NaN entry, a text cell gives one entry per token. *)
Definition explode_genres (c : cell) : list cell :=
  match c with
  | None => [None]
  | Some s => (Some ∘ Py.strip) <$> Py.split_comma s
  end.

Definition genres (df : list CleanRecord) : list cell :=
  df ≫= (explode_genres ∘ listed_in).


(** [genres.value_counts().head(n)]; [value_counts] leaves NaN out.  The
    script takes [n = 15]. *)
Definition topGenres {sort : CountSort} (n : nat) (df : list CleanRecord) :
    list (string * nat) :=
  head n (value_counts (dropna (genres df))).


(** Counts never increase along a table. *)
Definition by_count_descending {K} (out : list (K * nat)) : Prop :=
  ∀ i j p q,
    (i < j)%nat → out !! i = Some p → out !! j = Some q → (q.2 ≤ p.2)%nat.


(** An element of an object column after [.replace("Unknown", 0)]. *)
Inductive obj :=
  | ObjInt (z : Z)
  | ObjStr (s : string).

(** [.replace("Unknown", 0)] on one element: only an element equal to the
    whole string is replaced. *)
Definition replace_unknown (s : string) : obj :=
  if decide (s = "Unknown") then ObjInt 0 else ObjStr s.

(** [.astype(int)] on one element: Python's [int], then the store into a
    64-bit signed integer. *)
Definition int64 (z : Z) : result Z :=
  if (- 2 ^ 63 <=? z) && (z <? 2 ^ 63) then Ok z else Raise OverflowError.

Definition astype_int (o : obj) : result Z :=
  match o with
  | ObjInt z => int64 z
  | ObjStr s => z ← Py.int s; int64 z
  end.

(** The [minutes] of one movie (lines 204-208). *)
Definition durationMinutes (d : string) : result Z :=
  astype_int (replace_unknown (Py.delete " min" d)).

(** The [seasons] of one show (lines 220-225). *)
Definition seasons (d : string) : result Z :=
  astype_int (replace_unknown (Py.delete "s" (Py.delete " Season" d))).

Definition movies (df : list CleanRecord) : list CleanRecord :=
  filter (λ r, type r = Some "Movie") df.

Definition tv_shows (df : list CleanRecord) : list CleanRecord :=
  filter (λ r, type r = Some "TV Show") df.

(** The column [movies['minutes']]; the conversion raises as a whole when
    one element does. *)
Definition movies_minutes (df : list CleanRecord) : result (list Z) :=
  map_result (durationMinutes ∘ duration) (movies df).

Definition tv_seasons (df : list CleanRecord) : result (list Z) :=
  map_result (seasons ∘ duration) (tv_shows df).

(** [season_counts = tv_shows['seasons'].value_counts().head(10)] *)
Definition season_counts {sort : CountSort} (df : list CleanRecord) :
    result (list (Z * nat)) :=
  col ← tv_seasons df; Ok (head 10 (value_counts col)).

(** ** Sidebar options (lines 52-69) *)

(** [s.min(skipna=True)] and [s.max(skipna=True)]: NaN when the column holds
    no value. *)
Definition series_min (col : list (option Z)) : option Z :=
  match dropna col with
  | [] => None
  | y :: ys => Some (foldr Z.min y ys)
  end.

Definition series_max (col : list (option Z)) : option Z :=
  match dropna col with
  | [] => None
  | y :: ys => Some (foldr Z.max y ys)
  end.

(** [int(x)] of what [min] or [max] returned: NaN cannot be converted. *)
Definition int_of_number (x : option Z) : result Z :=
  match x with
  | Some v => Ok v
  | None => Raise ValueError
  end.

(** The two ends of the year slider; Python evaluates the lower end first. *)
Definition year_slider_range (df : list CleanRecord) : result (Z * Z) :=
  lo ← int_of_number (series_min (year_added <$> df));
  hi ← int_of_number (series_max (year_added <$> df));
  Ok (lo, hi).

(** [df['type'].unique()]: NaN is one of the values. *)
Definition type_options (df : list CleanRecord) : list cell :=
  unique (type <$> df).

(** [df['country'].value_counts().head(15).index] and [.head(5).index] *)
Definition country_options {sort : CountSort} (df : list CleanRecord) : list string :=
  fst <$> head 15 (value_counts (country <$> df)).

Definition country_default {sort : CountSort} (df : list CleanRecord) : list string :=
  fst <$> head 5 (value_counts (country <$> df)).

(** The selection the sidebar starts with. *)
Definition default_filter {sort : CountSort} (df : list CleanRecord) : FilterSpec :=
  {| year_filter := (2010, 2020);
     type_filter := type_options df;
     country_filter := country_default df |}.

(** ** Overview and charts (lines 83-86, 107, 122, 154) *)

Record KPIs := {
  total_titles : nat;
  n_movies : nat;
  n_tv_shows : nat;
  n_countries : nat;
}.

Definition kpis (df : list CleanRecord) : KPIs :=
  {| total_titles := length df;
     n_movies := length (filter (λ r, type r = Some "Movie") df);
     n_tv_shows := length (filter (λ r, type r = Some "TV Show") df);
     n_countries := length (unique (country <$> df)) |}.

(** [df_filtered['type'].value_counts()] *)
Definition type_counts {sort : CountSort} (df : list CleanRecord) : list (string * nat) :=
  value_counts (dropna (type <$> df)).

(** [df_filtered['rating'].value_counts()] *)
Definition rating_counts {sort : CountSort} (df : list CleanRecord) : list (string * nat) :=
  value_counts (rating <$> df).

(** The order [groupby] sorts the keys (year, type) in: by year, then by
    type in Python's order on [str]. *)
Definition key_leb (a b : Z * string) : bool :=
  (a.1 <? b.1) || ((a.1 =? b.1) && String.leb a.2 b.2).

(** The strict order of the keys. *)
Definition key_lt (a b : Z * string) : Prop := key_leb a b = true ∧ a ≠ b.

(** Insertion of a key into a sorted list of distinct keys. *)
Fixpoint insert_key (k : Z * string) (l : list (Z * string)) : list (Z * string) :=
  match l with
  | [] => [k]
  | x :: l' =>
      if decide (k = x) then l
      else if key_leb k x then k :: l
      else x :: insert_key k l'
  end.

Definition sorted_keys (l : list (Z * string)) : list (Z * string) :=
  foldr insert_key [] l.

(** The keys of the rows [groupby(['year_added', 'type'])] groups: a row with
    NaN in one of the two columns belongs to no group. *)
Definition trend_keys (df : list CleanRecord) : list (Z * string) :=
  omap (λ r, y ← year_added r; t ← type r; Some (y, t)) df.

(** [df_filtered.groupby(['year_added', 'type']).size().reset_index(name='count')] *)
Definition trend (df : list CleanRecord) : list (Z * string * nat) :=
  (λ k, (k, occurrences k (trend_keys df))) <$> sorted_keys (trend_keys df).






(** Whether the character [c] occurs in [s]. *)
Fixpoint string_contains (c : ascii) (s : string) : bool :=
  match s with
  | String a s' => Ascii.eqb a c || string_contains c s'
  | EmptyString => false
  end.

(** ** A concrete date parser

    Any parser with the laws of [DateParser] fits the model.  The one below
    reads only dates written [YYYY-MM-DD]; it serves to run the pipeline on
    concrete frames. *)

Definition digit_value (c : ascii) : Z := Z.of_nat (nat_of_ascii c) - 48.

Definition iso_date (s : string) : option Timestamp :=
  match s with
  | String y1 (String y2 (String y3 (String y4 (String p1 (String m1 (String m2
      (String p2 (String d1 (String d2 EmptyString))))))))) =>
      if forallb Py.is_digit [y1; y2; y3; y4; m1; m2; d1; d2]
         && Ascii.eqb p1 "-" && Ascii.eqb p2 "-" then
        let y := 1000 * digit_value y1 + 100 * digit_value y2
                 + 10 * digit_value y3 + digit_value y4 in
        let m := 10 * digit_value m1 + digit_value m2 in
        let d := 10 * digit_value d1 + digit_value d2 in
        if (1 <=? m) && (m <=? 12) && (1 <=? d) && (d <=? 31)
        then Some {| ts_year := y; ts_month := m; ts_day := d |}
        else None
      else None
  | _ => None
  end.

Definition iso_to_datetime (col : list cell) : list (option Timestamp) :=
  (λ c : cell, c ≫= iso_date) <$> col.

#[global] Instance iso_parser : DateParser.
Proof.
  refine {| to_datetime := iso_to_datetime |}; unfold iso_to_datetime.
  - intros col. apply length_fmap.
  - intros col i Hi. by rewrite list_lookup_fmap, Hi.
  - intros col i s Hi Hs. rewrite list_lookup_fmap, Hi. simpl. f_equal.
    destruct s as [|c s]; [done|].
    assert (Py.is_space c = true) as Hc.
    { unfold Py.strip in Hs. simpl in Hs.
      destruct (Py.is_space c) eqn:E; [done|].
      simpl in Hs. rewrite E in Hs. by destruct (Py.rstrip s). }
    assert (Py.is_digit c = false) as Hd.
    { unfold Py.is_space, Py.is_digit in *.
      destruct (48 <=? nat_of_ascii c)%nat eqn:E1; [|done].
      destruct (nat_of_ascii c <=? 57)%nat eqn:E2; [|done].
      apply Nat.leb_le in E1. apply Nat.leb_le in E2.
      apply orb_true_iff in Hc as [Hc|Hc]; apply andb_true_iff in Hc as [H1 H2];
        apply Nat.leb_le in H1; apply Nat.leb_le in H2; lia. }
    unfold iso_date. repeat case_match; try done.
    simpl in *. by rewrite Hd in *.
Defined.

(** ** Concrete frames *)

(** A line of the file with the given type, date, country, duration and
    genres. *)
Definition line (t : string) (date country dur listed : cell) : RawRecord :=
  {| raw_type := Some t; raw_date_added := date; raw_country := country;
     raw_rating := Some "PG"; raw_duration := dur; raw_listed_in := listed;
     raw_others := [] |}.

(** A clean record added on 9 September 2019. *)
Definition record (i : nat) (t c dur : string) (listed : cell) : CleanRecord :=
  {| index := i; type := Some t;
     date_added := Some {| ts_year := 2019; ts_month := 9; ts_day := 9 |};
     year_added := Some 2019; month_added := Some 9;
     country := c; rating := "PG"; duration := dur; listed_in := listed;
     others := [] |}.

(** The two lines of the specification's scenario: the second has a date
    that cannot be resolved. *)
Definition scenario_csv : list RawRecord :=
  [ line "Movie" (Some "2019-09-09") (Some "") (Some "90 min")
      (Some "Comedies, Dramas");
    line "Movie" (Some "not a date") (Some "US") (Some "Unknown")
      (Some "Dramas") ].

(** A title from Namibia, country code NA, without genres. *)
Definition namibia_csv : list RawRecord :=
  [ line "Movie" (Some "2020-01-01") (Some "NA") (Some "90 min") (Some "") ].





Definition namibia_record : CleanRecord :=
  {| index := 0; type := Some "Movie";
     date_added := Some {| ts_year := 2020; ts_month := 1; ts_day := 1 |};
     year_added := Some 2020; month_added := Some 1;
     country := "Unknown"; rating := "PG"; duration := "90 min";
     listed_in := None; others := [] |}.

(** Countries with counts US 5, IN 5, UK 3, the first US title standing
    before the first IN title. *)
Definition countries_frame : list CleanRecord :=
  imap (λ i c, record i "Movie" c "90 min" (Some "Dramas"))
    ["US"; "IN"; "UK"; "US"; "IN"; "UK"; "IN"; "US"; "IN"; "US"; "UK"; "IN"; "US"].

(** Two shows of one season, one show of two seasons, and a movie. *)
Definition shows_frame : list CleanRecord :=
  [ record 0 "TV Show" "US" "1 Season" (Some "TV Dramas");
    record 1 "TV Show" "US" "1 Season" (Some "TV Dramas");
    record 2 "TV Show" "US" "2 Seasons" (Some "TV Dramas");
    record 3 "Movie" "US" "90 min" (Some "Dramas") ].

Definition all_2019 : FilterSpec :=
  {| year_filter := (2019, 2019); type_filter := [Some "Movie"; Some "TV Show"];
     country_filter := ["US"; "IN"] |}.

Definition us_movies_2019 : FilterSpec :=
  {| year_filter := (2019, 2019); type_filter := [Some "Movie"];
     country_filter := ["US"] |}.

Definition no_types : FilterSpec :=
  {| year_filter := (2010, 2020); type_filter := []; country_filter := ["US"] |}.

Definition no_countries : FilterSpec :=
  {| year_filter := (2010, 2020); type_filter := [Some "Movie"];
     country_filter := [] |}.

(** * Properties *)

(** ** Lists: order-preserving selections *)

Section Sublists.
Context {A : Type}.
Implicit Types l k : list A.

(** A selection that keeps order embeds positions monotonically. *)
Lemma sublist_embedding l k :
  l `sublist_of` k →
  ∃ f : nat → nat,
    (∀ i j, (i < j)%nat → (f i < f j)%nat) ∧
    (∀ i x, l !! i = Some x → k !! f i = Some x).
Proof.
  induction 1 as [|x l k _ (f & Hmono & Hf)|x l k _ (f & Hmono & Hf)].
  - exists id. split; [done|]. by intros i x.
  - exists (λ i, match i with O => O | S i' => S (f i') end). split.
    + intros [|i] [|j] ?; try lia. apply Nat.succ_lt_mono in H. specialize (Hmono _ _ H). lia.
    + intros [|i] y; simpl; [done|]. apply Hf.
  - exists (λ i, S (f i)). split.
    + intros i j ?. specialize (Hmono _ _ H). lia.
    + intros i y ?. simpl. by apply Hf.
Qed.

Lemma lookup_pair_sublist l i j x y :
  (i < j)%nat → l !! i = Some x → l !! j = Some y → [x; y] `sublist_of` l.
Proof.
  revert i j. induction l as [|z l IH]; intros i j Hij Hi Hj; [done|].
  destruct i as [|i].
  - simplify_eq/=. destruct j as [|j]; [lia|]. simpl in Hj.
    apply sublist_skip, singleton_sublist_l. by eapply list_elem_of_lookup_2.
  - destruct j as [|j]; [lia|]. apply sublist_cons. eapply (IH i j); [lia|done..].
Qed.

Lemma sublist_pair_lookup l x y :
  [x; y] `sublist_of` l →
  ∃ i j, (i < j)%nat ∧ l !! i = Some x ∧ l !! j = Some y.
Proof.
  intros (f & Hmono & Hf)%sublist_embedding.
  exists (f 0%nat), (f 1%nat). split; [apply Hmono; lia|]. split; by apply Hf.
Qed.

Lemma sublist_filter_mono (P : A → Prop) `{!∀ x, Decision (P x)} l k :
  l `sublist_of` k → filter P l `sublist_of` filter P k.
Proof.
  induction 1 as [|x l k _ IH|x l k _ IH]; [done|..];
    rewrite ?filter_cons; repeat case_decide; try done;
    auto using sublist_skip, sublist_cons.
Qed.

Lemma filter_idem (P : A → Prop) `{!∀ x, Decision (P x)} l :
  filter P (filter P l) = filter P l.
Proof.
  induction l as [|x l IH]; [done|].
  rewrite filter_cons. case_decide; [|done].
  rewrite filter_cons_True by done. by rewrite IH.
Qed.

Lemma filter_all (P : A → Prop) `{!∀ x, Decision (P x)} l :
  Forall P l → filter P l = l.
Proof.
  induction 1 as [|x l ? _ IH]; [done|]. by rewrite filter_cons_True, IH.
Qed.

Lemma filter_none (P : A → Prop) `{!∀ x, Decision (P x)} l :
  Forall (λ x, ¬ P x) l → filter P l = [].
Proof.
  induction 1 as [|x l ? _ IH]; [done|]. by rewrite filter_cons_False.
Qed.

Lemma length_filter_split (P : A → Prop) `{!∀ x, Decision (P x)} l :
  (length (filter P l) + length (filter (λ x, ¬ P x) l) = length l)%nat.
Proof.
  induction l as [|x l IH]; [done|].
  rewrite !filter_cons. repeat case_decide; simpl; try done; lia.
Qed.

End Sublists.

(** ** The filter *)

Lemma keeps_spec spec r :
  keeps spec r = true ↔
    (∃ y, year_added r = Some y ∧ (year_filter spec).1 ≤ y ≤ (year_filter spec).2)
    ∧ type r ∈ type_filter spec
    ∧ country r ∈ country_filter spec.
Proof.
  unfold keeps, between, isin.
  rewrite !andb_true_iff, !bool_decide_eq_true.
  destruct (year_added r) as [y|].
  - rewrite andb_true_iff, !Z.leb_le. naive_solver.
  - naive_solver.
Qed.

(** C3.  A record is in the filtered frame exactly when it is in the clean
    frame, its year of addition lies in the year range (both ends included),
    its type is one of the selected types and its country is one of the
    selected countries; with no type selected, or no country selected, the
    filtered frame is empty whatever the clean frame holds. *)
Theorem df_filtered_spec :
  (∀ spec df r,
     r ∈ df_filtered spec df ↔
       r ∈ df
       ∧ (∃ y, year_added r = Some y
               ∧ (year_filter spec).1 ≤ y ≤ (year_filter spec).2)
       ∧ type r ∈ type_filter spec
       ∧ country r ∈ country_filter spec)
  ∧ (∀ spec df, type_filter spec = [] → df_filtered spec df = [])
  ∧ (∀ spec df, country_filter spec = [] → df_filtered spec df = []).
Proof.
  split; [|split].
  - intros spec df r. unfold df_filtered.
    rewrite list_elem_of_filter, keeps_spec. naive_solver.
  - intros spec df Hty. apply filter_none, Forall_forall. intros r _.
    rewrite keeps_spec, Hty. intros (_ & []%elem_of_nil & _).
  - intros spec df Hco. apply filter_none, Forall_forall. intros r _.
    rewrite keeps_spec, Hco. intros (_ & _ & []%elem_of_nil).
Qed.

(** C8.  Filtering a filtered frame again with the same selection gives the
    same frame: the same records in the same order. *)
Theorem df_filtered_idempotent spec df :
  df_filtered spec (df_filtered spec df) = df_filtered spec df.
Proof. apply filter_idem. Qed.

(** C10.  The filtered frame is a selection of the clean frame that keeps
    order: it is a sublist; two records at positions [i < j] of the filtered
    frame stand at positions [i' < j'] of the clean frame; no record occurs
    more often than in the clean frame; and row labels that are distinct in
    the clean frame are distinct in the filtered one. *)
Theorem df_filtered_subsequence spec df :
  df_filtered spec df `sublist_of` df
  ∧ (∀ i j r1 r2,
       (i < j)%nat →
       df_filtered spec df !! i = Some r1 →
       df_filtered spec df !! j = Some r2 →
       ∃ i' j', (i' < j')%nat ∧ df !! i' = Some r1 ∧ df !! j' = Some r2)
  ∧ (∀ r, (occurrences r (df_filtered spec df) ≤ occurrences r df)%nat)
  ∧ (NoDup (index <$> df) → NoDup (index <$> df_filtered spec df)).
Proof.
  assert (df_filtered spec df `sublist_of` df) as Hsub by apply sublist_filter.
  split; [done|]. split; [|split].
  - intros i j r1 r2 Hij H1 H2. apply sublist_pair_lookup.
    etrans; [|exact Hsub]. by eapply lookup_pair_sublist.
  - intros r. unfold occurrences. apply sublist_length.
    by apply sublist_filter_mono.
  - intros Hnd. eapply sublist_NoDup; [exact Hnd|]. by apply fmap_sublist.
Qed.

(** ** Keeping first occurrences *)

Section KeepFirst.
Context {A K : Type} `{EqDecision K} (key : A → K).

Lemma keep_first_sublist l : keep_first key l `sublist_of` l.
Proof.
  induction l as [|x l IH]; [done|]. simpl. apply sublist_skip.
  etrans; [apply sublist_filter|done].
Qed.

Lemma keep_first_keys l y : y ∈ l → key y ∈ key <$> keep_first key l.
Proof.
  induction l as [|x l IH]; [by intros ?%elem_of_nil|].
  intros [->|Hy]%elem_of_cons; simpl; [left|].
  destruct (decide (key y = key x)) as [->|Hne]; [left|right].
  specialize (IH Hy). apply list_elem_of_fmap in IH as (z & Hz & Hin).
  apply list_elem_of_fmap. exists z. split; [done|].
  apply list_elem_of_filter. split; [congruence|done].
Qed.

Lemma keep_first_NoDup l : NoDup (key <$> keep_first key l).
Proof.
  induction l as [|x l IH]; [constructor|]. simpl. constructor.
  - intros (z & Hz & Hin)%list_elem_of_fmap.
    apply list_elem_of_filter in Hin as [Hne _]. congruence.
  - eapply sublist_NoDup; [exact IH|]. apply fmap_sublist, sublist_filter.
Qed.

End KeepFirst.

(** ** Loading *)

Lemma read_csv_lookup csv i p :
  read_csv csv !! i = Some p ↔ ∃ x, csv !! i = Some x ∧ p = (i, read_row x).
Proof.
  unfold read_csv. rewrite list_lookup_imap.
  destruct (csv !! i) as [x|]; simpl; naive_solver.
Qed.

Lemma read_csv_labels csv : (fst <$> read_csv csv) = seq 0 (length csv).
Proof.
  apply list_eq. intros i. rewrite list_lookup_fmap.
  destruct (read_csv csv !! i) as [p|] eqn:E; simpl.
  - apply read_csv_lookup in E as (x & Hx & ->). simpl.
    symmetry. apply lookup_seq. split; [done|]. by eapply lookup_lt_Some.
  - symmetry. apply lookup_seq_ge.
    destruct (csv !! i) as [x|] eqn:Hx.
    + assert (read_csv csv !! i = Some (i, read_row x)) by (apply read_csv_lookup; eauto).
      congruence.
    + by apply lookup_ge_None.
Qed.

Lemma drop_duplicates_labels csv : NoDup (fst <$> drop_duplicates (read_csv csv)).
Proof.
  eapply sublist_NoDup; [|apply fmap_sublist, keep_first_sublist].
  rewrite read_csv_labels. apply NoDup_seq.
Qed.

Lemma drop_duplicates_row csv i x :
  (i, x) ∈ drop_duplicates (read_csv csv) →
  ∃ x0, csv !! i = Some x0 ∧ x = read_row x0.
Proof.
  intros Hin. eapply elem_of_sublist in Hin; [|apply keep_first_sublist].
  apply list_elem_of_lookup in Hin as (k & Hk).
  apply read_csv_lookup in Hk as (x0 & Hx0 & [= -> ->]). eauto.
Qed.

Section LoadFacts.
Context `{DateParser}.

Lemma parsed_lookup csv j p :
  parsed csv !! j = Some p ↔
    ∃ i x d, p = (i, x, d)
             ∧ drop_duplicates (read_csv csv) !! j = Some (i, x)
             ∧ date_column csv !! j = Some d.
Proof.
  unfold parsed. rewrite lookup_zip_with_Some. split.
  - intros ([i x] & d & -> & ? & ?). eauto 10.
  - intros (i & x & d & -> & ? & ?). eauto.
Qed.

Lemma length_parsed csv :
  length (parsed csv) = length (drop_duplicates (read_csv csv)).
Proof.
  unfold parsed, date_column.
  rewrite length_zip_with, to_datetime_length, length_fmap. lia.
Qed.

Lemma elem_of_load_data csv r :
  r ∈ load_data csv ↔
    ∃ j i x d, drop_duplicates (read_csv csv) !! j = Some (i, x)
               ∧ date_column csv !! j = Some (Some d)
               ∧ r = normalize (i, x, Some d).
Proof.
  unfold load_data. rewrite list_elem_of_fmap. split.
  - intros (p & -> & [Hd Hp]%list_elem_of_filter).
    apply list_elem_of_lookup in Hp as (j & Hj).
    apply parsed_lookup in Hj as (i & x & d & -> & ? & ?).
    destruct Hd as [d' Hd]. simpl in Hd. subst d. eauto 10.
  - intros (j & i & x & d & ? & ? & ->). exists (i, x, Some d). split; [done|].
    apply list_elem_of_filter. split; [by eexists|].
    apply list_elem_of_lookup. exists j. apply parsed_lookup. eauto 10.
Qed.

(** A row whose date came out as NaT leaves no record behind. *)
Lemma load_data_drops csv j i x :
  drop_duplicates (read_csv csv) !! j = Some (i, x) →
  date_column csv !! j = Some None →
  ∀ r, r ∈ load_data csv → index r ≠ i.
Proof.
  intros Hj Hd r (j' & i' & x' & d & Hj' & Hd' & ->)%elem_of_load_data. simpl.
  intros ->.
  assert (j' = j) as ->.
  { eapply NoDup_lookup; [apply (drop_duplicates_labels csv)|..];
      rewrite list_lookup_fmap; [by rewrite Hj'|by rewrite Hj]. }
  congruence.
Qed.

(** The date cell of a line that is missing, empty or blank is NaT. *)
Lemma blank_date_is_NaT csv j i x x0 :
  drop_duplicates (read_csv csv) !! j = Some (i, x) →
  x = read_row x0 →
  (raw_date_added x0 = None
   ∨ ∃ s, raw_date_added x0 = Some s ∧ Py.strip s = "") →
  date_column csv !! j = Some None.
Proof.
  intros Hj -> Hblank. unfold date_column.
  assert (((raw_date_added ∘ snd) <$> drop_duplicates (read_csv csv)) !! j
          = Some (na_filter (raw_date_added x0))) as Hcell.
  { by rewrite list_lookup_fmap, Hj. }
  destruct Hblank as [Hnone|(s & Hs & Hstrip)].
  - rewrite Hnone in Hcell. by apply to_datetime_nan.
  - rewrite Hs in Hcell. simpl in Hcell. case_decide.
    + by apply to_datetime_nan.
    + by eapply to_datetime_blank.
Qed.

End LoadFacts.


Section LoadTheorems.
Context `{DateParser}.

Lemma length_load_data csv :
  (length (load_data csv) + length (filter (λ d, d = None) (date_column csv))
   = length (drop_duplicates (read_csv csv)))%nat.
Proof.
  unfold load_data. rewrite length_fmap, <-length_parsed. unfold parsed.
  assert (length (drop_duplicates (read_csv csv)) = length (date_column csv)) as Hlen.
  { unfold date_column. by rewrite to_datetime_length, length_fmap. }
  revert Hlen. generalize (date_column csv) (drop_duplicates (read_csv csv)).
  intros ds. induction ds as [|d ds IH]; intros [|p df] Hlen; simplify_eq/=; [done|].
  specialize (IH _ Hlen). rewrite !filter_cons. simpl.
  destruct d as [d|]; repeat case_decide; simpl in *;
    try done; try (by exfalso; eauto using is_Some_None); lia.
Qed.

Lemma missing_dates_load_data csv : missing_dates (load_data csv) = 0%nat.
Proof.
  unfold missing_dates. rewrite filter_none; [done|].
  apply Forall_forall. intros r (j & i & x & d & _ & _ & ->)%elem_of_load_data.
  done.
Qed.

(** C7.  Every record of the clean frame has a resolved date, and its year
    and month are those of that date, so year and month are present exactly
    when the date is.  A line of the file whose date is missing, empty or
    only whitespace leaves no record in the clean frame, and neither does a
    row whose date the parser could not resolve; a row whose date was
    resolved is kept. *)
Theorem load_data_dates csv :
  (∀ r, r ∈ load_data csv →
     is_Some (date_added r)
     ∧ year_added r = ts_year <$> date_added r
     ∧ month_added r = ts_month <$> date_added r
     ∧ (is_Some (year_added r) ∧ is_Some (month_added r)
        ↔ is_Some (date_added r)))
  ∧ (∀ i x, csv !! i = Some x →
       (raw_date_added x = None
        ∨ ∃ s, raw_date_added x = Some s ∧ Py.strip s = "") →
       ∀ r, r ∈ load_data csv → index r ≠ i)
  ∧ (∀ j i x, drop_duplicates (read_csv csv) !! j = Some (i, x) →
       date_column csv !! j = Some None →
       ∀ r, r ∈ load_data csv → index r ≠ i)
  ∧ (∀ j i x d, drop_duplicates (read_csv csv) !! j = Some (i, x) →
       date_column csv !! j = Some (Some d) →
       normalize (i, x, Some d) ∈ load_data csv).
Proof.
  split; [|split; [|split]].
  - intros r (j & i & x & d & _ & _ & ->)%elem_of_load_data. simpl.
    split; [by eexists|]. split; [done|]. split; [done|].
    split; [by eexists|]. intros _. split; by eexists.
  - intros i x Hx Hblank r Hr Hi.
    pose proof Hr as (j & i' & x' & d & Hj & Hd & ->)%elem_of_load_data.
    simpl in Hi. subst i'.
    destruct (drop_duplicates_row csv i x') as (x0 & Hx0 & Hx');
      [by eapply list_elem_of_lookup_2|].
    assert (x0 = x) as -> by congruence.
    pose proof (blank_date_is_NaT csv j i x' x Hj Hx' Hblank). congruence.
  - apply load_data_drops.
  - intros j i x d Hj Hd. apply elem_of_load_data. eauto 10.
Qed.


End LoadTheorems.

(** C1.  The rows [load_data] drops are counted nowhere: the frame it returns
    is all the caller gets, and the count the script takes from that frame is
    zero for every file, so the warning is never shown.  On the two lines of
    the scenario one row is dropped, one record is left, and the reported
    count is 0 where the number of dropped rows is 1. *)
Theorem missing_dates_zero :
  (∀ (parser : DateParser) csv,
     missing_dates (load_data csv) = 0%nat
     ∧ warning_shown (load_data csv) = false
     ∧ (length (load_data csv)
        + length (filter (λ d, d = None) (date_column csv))
        = length (drop_duplicates (read_csv csv)))%nat)
  ∧ length (drop_duplicates (read_csv scenario_csv)) = 2%nat
  ∧ length (load_data scenario_csv) = 1%nat
  ∧ length (filter (λ d, d = None) (date_column scenario_csv)) = 1%nat
  ∧ missing_dates (load_data scenario_csv) = 0%nat
  ∧ warning_shown (load_data scenario_csv) = false.
Proof.
  split; [|by vm_compute].
  intros parser csv. split; [apply missing_dates_load_data|]. split.
  - unfold warning_shown. by rewrite missing_dates_load_data.
  - apply length_load_data.
Qed.

(** ** Parsing durations *)

Lemma append_empty_r (s : string) : s +:+ "" = s.
Proof.
  induction s as [|c s IH]; [done|].
  change (String c (s +:+ "") = String c s). by rewrite IH.
Qed.

Lemma digit_not_space c : Py.is_digit c = true → Py.is_space c = false.
Proof.
  unfold Py.is_digit, Py.is_space. intros [H1 H2]%andb_true_iff.
  apply Nat.leb_le in H1. apply Nat.leb_le in H2.
  apply orb_false_iff. split; apply andb_false_iff.
  - right. apply Nat.leb_gt. lia.
  - right. apply Nat.leb_gt. lia.
Qed.

Lemma string_of_uint_digits d : Py.only_digits (NilEmpty.string_of_uint d) = true.
Proof. induction d; simpl; by rewrite ?IHd. Qed.

Lemma str_of_N_digits n : Py.only_digits (Py.str_of_N n) = true.
Proof. apply string_of_uint_digits. Qed.

Lemma str_of_N_nonempty n : Py.str_of_N n ≠ "".
Proof.
  unfold Py.str_of_N. destruct n as [|p]; [done|]. simpl.
  pose proof (DecimalPos.Unsigned.to_uint_nonnil p) as Hnil.
  by destruct (Pos.to_uint p).
Qed.

(** An occurrence of [old] cannot start inside a run of digits when [old]
    starts with a character that is not a digit. *)
Lemma delete_digits c0 old s t :
  Py.is_digit c0 = false → Py.only_digits s = true →
  Py.delete (String c0 old) (s +:+ t) = s +:+ Py.delete (String c0 old) t.
Proof.
  intros Hc0. unfold Py.delete. induction s as [|c s IH]; [done|].
  intros [Hc Hs]%andb_true_iff. simpl.
  destruct (ascii_dec c0 c) as [->|_]; [congruence|]. by rewrite IH.
Qed.


Lemma rstrip_digits s : Py.only_digits s = true → Py.rstrip s = s.
Proof.
  induction s as [|c s IH]; [done|]. intros [Hc Hs]%andb_true_iff. simpl.
  rewrite IH by done. destruct s; [|done]. by rewrite (digit_not_space c).
Qed.


Lemma literal_digits_digits s :
  Py.only_digits s = true → Py.literal_digits s true = Some s.
Proof.
  induction s as [|c s IH]; [done|]. intros [Hc Hs]%andb_true_iff. simpl.
  by rewrite Hc, IH.
Qed.

Lemma digit_not_sign c :
  Py.is_digit c = true → Ascii.eqb c "-" = false ∧ Ascii.eqb c "+" = false.
Proof.
  unfold Py.is_digit. intros [H1 H2]%andb_true_iff.
  apply Nat.leb_le in H1. apply Nat.leb_le in H2.
  split; apply Ascii.eqb_neq; intros ->;
    change (48 ≤ _)%nat with (48 ≤ 45)%nat in H1 || change (48 ≤ _)%nat with (48 ≤ 43)%nat in H1; lia.
Qed.




Lemma int64_in_range z : - 2 ^ 63 ≤ z < 2 ^ 63 → int64 z = Ok z.
Proof.
  intros [H1 H2]. unfold int64.
  apply Z.leb_le in H1. apply Z.ltb_lt in H2. by rewrite H1, H2.
Qed.




(** ** Counting values *)

Section ValueCounts.
Context {sort : CountSort} {K : Type} `{EqDecision K}.
Implicit Types (col : list K) (l out : list (K * nat)) (p q : K * nat).

Lemma elem_of_unique k col : k ∈ unique col ↔ k ∈ col.
Proof.
  split.
  - intros Hk. eapply elem_of_sublist; [done|apply keep_first_sublist].
  - intros Hk. apply (keep_first_keys id) in Hk. by rewrite list_fmap_id in Hk.
Qed.

Lemma NoDup_unique col : NoDup (unique col).
Proof. rewrite <-(list_fmap_id (unique col)). apply keep_first_NoDup. Qed.

Lemma value_counts_perm col :
  value_counts col ≡ₚ (λ k, (k, occurrences k col)) <$> unique col.
Proof. apply sort_values_perm. Qed.

Lemma value_counts_sorted col : StronglySorted by_count (value_counts col).
Proof. apply sort_values_sorted. Qed.

Lemma value_counts_nil : value_counts (@nil K) = [].
Proof. apply Permutation_nil_r. by rewrite value_counts_perm. Qed.

Lemma occurrences_pos k col : k ∈ col → (0 < occurrences k col)%nat.
Proof.
  intros Hk. unfold occurrences.
  assert (k ∈ filter (λ y, y = k) col) as Hin by by apply list_elem_of_filter.
  destruct (filter _ col); [by apply elem_of_nil in Hin|simpl; lia].
Qed.

Lemma elem_of_value_counts col k c :
  (k, c) ∈ value_counts col ↔ k ∈ col ∧ c = occurrences k col.
Proof.
  rewrite value_counts_perm, list_elem_of_fmap.
  setoid_rewrite elem_of_unique. naive_solver.
Qed.

Lemma value_counts_labels col : fst <$> value_counts col ≡ₚ unique col.
Proof.
  rewrite value_counts_perm, <-list_fmap_compose.
  by rewrite (list_fmap_ext _ id (unique col)), list_fmap_id.
Qed.

Lemma NoDup_value_counts col : NoDup (fst <$> value_counts col).
Proof. rewrite value_counts_labels. apply NoDup_unique. Qed.

Lemma sorted_descending out : StronglySorted by_count out → by_count_descending out.
Proof.
  intros Hsorted i j p q Hij Hi Hj.
  rewrite <-(take_drop j out) in Hsorted.
  eapply (StronglySorted_app_1_elem_of _ _ _ p q) in Hsorted; [done|..].
  - apply elem_of_take. eauto.
  - apply list_elem_of_lookup. exists 0%nat. by rewrite lookup_drop, Nat.add_0_r.
Qed.




(** The counts add up to the length of the column. *)
Lemma sum_occurrences (u col : list K) :
  NoDup u →
  sum_list ((λ k, occurrences k col) <$> u) = length (filter (λ y, y ∈ u) col).
Proof.
  induction 1 as [|a u Ha _ IH]; csimpl.
  - rewrite filter_none; [done|]. apply Forall_forall. intros y _ []%elem_of_nil.
  - rewrite IH. unfold occurrences. clear IH.
    induction col as [|y col IHc]; [done|].
    rewrite !filter_cons. repeat case_decide; simplify_eq/=;
      try (exfalso; set_solver); try lia.
Qed.

Lemma sum_value_counts col : sum_list (snd <$> value_counts col) = length col.
Proof.
  rewrite value_counts_perm, <-list_fmap_compose.
  rewrite (list_fmap_ext _ (λ k, occurrences k col) (unique col)) by done.
  rewrite (sum_occurrences _ _ (NoDup_unique col)).
  rewrite filter_all; [done|]. apply Forall_forall. intros y Hy.
  by apply elem_of_unique.
Qed.




End ValueCounts.

(** ** Conversions that can raise *)

Lemma map_result_Ok {A B} (f : A → result B) l bs :
  map_result f l = Ok bs ↔ Forall2 (λ a b, f a = Ok b) l bs.
Proof.
  revert bs. induction l as [|a l IH]; intros bs; simpl.
  - split; [intros [= <-]; constructor|by intros ->%Forall2_nil_inv_l].
  - destruct (f a) as [b|e] eqn:Ea; simpl.
    + destruct (map_result f l) as [bs'|e] eqn:El; simpl.
      * split.
        -- intros [= <-]. constructor; [done|]. by apply IH.
        -- intros (b' & bs'' & Hb & Hbs & ->)%Forall2_cons_inv_l.
           apply IH in Hbs. congruence.
      * split; [done|].
        intros (b' & bs'' & Hb & Hbs & ->)%Forall2_cons_inv_l.
        apply IH in Hbs. congruence.
    + split; [done|].
      intros (b' & bs'' & Hb & Hbs & ->)%Forall2_cons_inv_l. congruence.
Qed.

Lemma map_result_Raise {A B} (f : A → result B) l a e :
  a ∈ l → f a = Raise e → ∃ e', map_result f l = Raise e'.
Proof.
  intros Ha Hf. destruct (map_result f l) as [bs|e'] eqn:E; [|by eexists].
  apply map_result_Ok in E.
  apply list_elem_of_lookup in Ha as (i & Hi).
  destruct (Forall2_lookup_l _ _ _ _ _ E Hi) as (b & _ & Hb). congruence.
Qed.



Lemma occurrences_fmap {A K} `{EqDecision K} (f : A → K) k (l : list A) :
  occurrences k (f <$> l) = length (filter (λ x, f x = k) l).
Proof.
  unfold occurrences. induction l as [|x l IH]; [done|]. csimpl.
  rewrite !filter_cons. case_decide; simpl; by rewrite IH.
Qed.

(** ** The aggregations *)




Lemma dropna_explode_genres c :
  dropna (explode_genres c) =
    match c with
    | Some s => Py.strip <$> Py.split_comma s
    | None => []
    end.
Proof.
  destruct c as [s|]; [|done]. unfold dropna. simpl.
  induction (Py.split_comma s) as [|t ts IH]; [done|]. csimpl. by rewrite IH.
Qed.

Lemma dropna_genres df :
  dropna (genres df) =
    df ≫= (λ r, match listed_in r with
                | Some s => Py.strip <$> Py.split_comma s
                | None => []
                end).
Proof.
  unfold genres. induction df as [|r df IH]; [done|]. csimpl.
  unfold dropna in *. by rewrite omap_app, IH, <-dropna_explode_genres.
Qed.


(** ** Splitting and stripping *)



Lemma split_comma_no_comma s t :
  t ∈ Py.split_comma s → string_contains "," t = false.
Proof.
  revert t. induction s as [|c s IH]; intros t; simpl.
  - by intros ->%list_elem_of_singleton.
  - destruct (Ascii.eqb c ",") eqn:Ec.
    + intros [->|Ht]%elem_of_cons; [done|]. by apply IH.
    + destruct (Py.split_comma s) as [|t0 ts].
      * intros ->%list_elem_of_singleton. simpl. by rewrite Ec.
      * intros [->|Ht]%elem_of_cons.
        -- simpl. rewrite Ec. apply IH. left.
        -- apply IH. by right.
Qed.







(** ** Tables without equal counts *)



(** ** The claims on concrete frames *)





Lemma df_filtered_spec_witness :
  (type_filter no_types = [] ∧ df_filtered no_types countries_frame = [])
  ∧ (country_filter no_countries = []
     ∧ df_filtered no_countries countries_frame = []).
Proof.
  split; (split; [reflexivity|]).
  - apply (proj1 (proj2 df_filtered_spec) no_types countries_frame). reflexivity.
  - apply (proj2 (proj2 df_filtered_spec) no_countries countries_frame). reflexivity.
Defined.

Lemma df_filtered_subsequence_witness :
  ∃ i' j', (i' < j')%nat
    ∧ countries_frame !! i' = Some (record 1 "Movie" "IN" "90 min" (Some "Dramas"))
    ∧ countries_frame !! j' = Some (record 3 "Movie" "US" "90 min" (Some "Dramas")).
Proof.
  apply (proj1 (proj2 (df_filtered_subsequence all_2019 countries_frame)) 1%nat 2%nat);
    [lia|reflexivity|reflexivity].
Defined.

Lemma load_data_dates_witness :
  scenario_csv !! 1%nat
    = Some (line "Movie" (Some "not a date") (Some "US") (Some "Unknown") (Some "Dramas"))
  ∧ date_column scenario_csv !! 1%nat = Some None
  ∧ ∀ r, r ∈ load_data scenario_csv → index r ≠ 1%nat.
Proof.
  split; [reflexivity|]. split; [reflexivity|].
  apply (proj1 (proj2 (proj2 (load_data_dates scenario_csv))) 1%nat 1%nat
           (read_row (line "Movie" (Some "not a date") (Some "US") (Some "Unknown")
                        (Some "Dramas"))));
    reflexivity.
Defined.






(** * Further properties of the script *)

(** ** Deduplication and row order *)

Lemma StronglySorted_sublist {A} (R : relation A) (l k : list A) :
  l `sublist_of` k → StronglySorted R k → StronglySorted R l.
Proof.
  induction 1 as [|x l k Hsub IH|x l k Hsub IH]; [done|..].
  - intros [Hall Hk]%StronglySorted_cons. apply StronglySorted_cons.
    split; [|by apply IH]. rewrite Forall_forall in *.
    intros y Hy. apply Hall. by eapply elem_of_sublist.
  - intros [_ Hk]%StronglySorted_cons. by apply IH.
Qed.

Lemma StronglySorted_seq a n : StronglySorted lt (seq a n).
Proof.
  revert a. induction n as [|n IH]; intros a; simpl; [constructor|].
  apply StronglySorted_cons. split; [|apply IH].
  apply Forall_forall. intros y Hy%elem_of_seq. lia.
Qed.

(** A row is kept exactly when no earlier row has the same key. *)
Lemma elem_of_keep_first {A K} `{EqDecision K} (key : A → K) l y :
  y ∈ keep_first key l ↔
    ∃ i, l !! i = Some y
         ∧ ∀ j z, (j < i)%nat → l !! j = Some z → key z ≠ key y.
Proof.
  induction l as [|x l IH]; simpl.
  - split; [by intros ?%elem_of_nil|by intros (i & ? & _)].
  - rewrite elem_of_cons, list_elem_of_filter, IH. split.
    + intros [->|(Hne & i & Hi & Hfirst)].
      * exists 0%nat. split; [done|]. intros; lia.
      * exists (S i). split; [done|].
        intros [|j] z Hj Hz; simplify_eq/=; [congruence|]. eapply Hfirst; [|done]. lia.
    + intros ([|i] & Hi & Hfirst); simplify_eq/=; [by left|right]. split.
      * intros Heq. by apply (Hfirst 0%nat x); [lia|..].
      * exists i. split; [done|]. intros j z Hj Hz.
        apply (Hfirst (S j)); [lia|done].
Qed.

Section Order.
Context `{DateParser}.

Lemma load_data_labels csv :
  index <$> load_data csv `sublist_of` seq 0 (length csv).
Proof.
  unfold load_data. rewrite <-list_fmap_compose.
  rewrite (list_fmap_ext _ (fst ∘ fst) _) by (by intros i [[??]?]).
  etrans; [apply fmap_sublist, sublist_filter|].
  rewrite list_fmap_compose. unfold parsed.
  rewrite fst_zip.
  - rewrite <-read_csv_labels. apply fmap_sublist, keep_first_sublist.
  - unfold date_column. by rewrite to_datetime_length, length_fmap.
Qed.

(** X1.  The clean frame keeps the order of the file: the labels of its
    records are line numbers of the file in strictly increasing order, so no
    line gives two records and the frame is never longer than the file. *)
Theorem load_data_order csv :
  index <$> load_data csv `sublist_of` seq 0 (length csv)
  ∧ StronglySorted lt (index <$> load_data csv)
  ∧ NoDup (index <$> load_data csv)
  ∧ (length (load_data csv) ≤ length csv)%nat.
Proof.
  pose proof (load_data_labels csv) as Hsub.
  split; [done|]. split; [|split].
  - eapply StronglySorted_sublist; [done|apply StronglySorted_seq].
  - eapply sublist_NoDup; [apply NoDup_seq|done].
  - apply sublist_length in Hsub. by rewrite length_fmap, length_seq in Hsub.
Qed.

(** X3.  No record of the clean frame holds a missing-value marker: its
    country, rating and duration are never empty and never one of the texts
    the reader takes for NaN, and its type and genres are NaN or a text that
    is not such a marker. *)
Theorem load_data_no_marker csv r :
  r ∈ load_data csv →
  (country r ∉ STR_NA_VALUES) ∧ (rating r ∉ STR_NA_VALUES)
  ∧ (duration r ∉ STR_NA_VALUES)
  ∧ (∀ s, type r = Some s → s ∉ STR_NA_VALUES)
  ∧ (∀ s, listed_in r = Some s → s ∉ STR_NA_VALUES)
  ∧ country r ≠ "" ∧ rating r ≠ "" ∧ duration r ≠ "".
Proof.
  intros (j & i & x & d & Hj & _ & ->)%elem_of_load_data.
  destruct (drop_duplicates_row csv i x) as (x0 & _ & ->);
    [by eapply list_elem_of_lookup_2|].
  assert (∀ c, fillna "Unknown" (na_filter c) ∉ STR_NA_VALUES) as Hfill.
  { assert ("Unknown" ∉ STR_NA_VALUES) by (by apply (bool_decide_unpack _)).
    intros [s|]; simpl; [by case_decide|done]. }
  assert (∀ c s, na_filter c = Some s → s ∉ STR_NA_VALUES) as Hcell.
  { intros [s'|] s; simpl; [|done]. case_decide; [done|]. by intros [= <-]. }
  assert ("" ∈ STR_NA_VALUES) as Hempty by left.
  simpl. repeat split; try apply Hfill; try apply Hcell;
    intros Heq; eapply Hfill; by rewrite Heq.
Qed.

End Order.

(** X2.  After [drop_duplicates] no two rows of the frame are equal, and a
    line of the file stays in the frame exactly when no earlier line reads
    to the same row: of equal lines the first one is kept, under its own
    label. *)
Theorem drop_duplicates_first csv :
  NoDup (snd <$> drop_duplicates (read_csv csv))
  ∧ ∀ i x,
      (i, x) ∈ drop_duplicates (read_csv csv) ↔
        (∃ x0, csv !! i = Some x0 ∧ x = read_row x0)
        ∧ ∀ j x1, (j < i)%nat → csv !! j = Some x1 → read_row x1 ≠ x.
Proof.
  split; [apply keep_first_NoDup|].
  intros i x. unfold drop_duplicates. rewrite elem_of_keep_first. split.
  - intros (k & Hk & Hfirst).
    apply read_csv_lookup in Hk as (x0 & Hx0 & [= -> ->]).
    split; [eauto|]. intros j x1 Hj Hx1.
    apply (Hfirst j (j, read_row x1)); [done|]. apply read_csv_lookup. eauto.
  - intros ((x0 & Hx0 & ->) & Hfirst). exists i. split.
    + apply read_csv_lookup. eauto.
    + intros j z Hj Hz. apply read_csv_lookup in Hz as (x1 & Hx1 & ->).
      simpl. by eapply Hfirst.
Qed.

(** ** The sidebar *)

Lemma foldr_min_spec y ys :
  foldr Z.min y ys ∈ y :: ys ∧ ∀ z, z ∈ y :: ys → foldr Z.min y ys ≤ z.
Proof.
  induction ys as [|a ys [Hin Hle]]; simpl.
  - split; [left|]. by intros z ->%list_elem_of_singleton.
  - split.
    + destruct (Z.min_spec a (foldr Z.min y ys)) as [[_ ->]|[_ ->]]; [right; left|].
      apply elem_of_cons in Hin as [->|Hin]; [left|by do 2 right].
    + intros z [->|[->|Hz]%elem_of_cons]%elem_of_cons.
      * etrans; [apply Z.le_min_r|]. apply Hle. left.
      * apply Z.le_min_l.
      * etrans; [apply Z.le_min_r|]. apply Hle. by right.
Qed.

Lemma foldr_max_spec y ys :
  foldr Z.max y ys ∈ y :: ys ∧ ∀ z, z ∈ y :: ys → z ≤ foldr Z.max y ys.
Proof.
  induction ys as [|a ys [Hin Hle]]; simpl.
  - split; [left|]. by intros z ->%list_elem_of_singleton.
  - split.
    + destruct (Z.max_spec a (foldr Z.max y ys)) as [[_ ->]|[_ ->]]; [|right; left].
      apply elem_of_cons in Hin as [->|Hin]; [left|by do 2 right].
    + intros z [->|[->|Hz]%elem_of_cons]%elem_of_cons.
      * etrans; [|apply Z.le_max_r]. apply Hle. left.
      * apply Z.le_max_l.
      * etrans; [|apply Z.le_max_r]. apply Hle. by right.
Qed.

Lemma elem_of_years df y :
  y ∈ dropna (year_added <$> df) ↔ ∃ r, r ∈ df ∧ year_added r = Some y.
Proof.
  unfold dropna. rewrite list_elem_of_omap.
  setoid_rewrite list_elem_of_fmap. naive_solver.
Qed.

(** X4.  The year slider.  Its two ends cannot be computed when no record
    has a year: the script then stops with [ValueError].  Otherwise they are
    the smallest and the largest year of the frame: both occur in it and
    every year lies between them, so the full range removes no record. *)
Theorem year_slider_range_spec df :
  (year_slider_range df = Raise ValueError ↔ dropna (year_added <$> df) = [])
  ∧ (∀ lo hi, year_slider_range df = Ok (lo, hi) →
       lo ≤ hi
       ∧ (∃ r, r ∈ df ∧ year_added r = Some lo)
       ∧ (∃ r, r ∈ df ∧ year_added r = Some hi)
       ∧ (∀ r y, r ∈ df → year_added r = Some y →
            lo ≤ y ≤ hi ∧ between lo hi (year_added r) = true)).
Proof.
  unfold year_slider_range, series_min, series_max.
  destruct (dropna (year_added <$> df)) as [|y ys] eqn:E; simpl.
  - split; [done|]. by intros lo hi.
  - split; [done|]. intros lo hi [= <- <-].
    destruct (foldr_min_spec y ys) as [Hmin_in Hmin].
    destruct (foldr_max_spec y ys) as [Hmax_in Hmax].
    rewrite <-E in Hmin_in, Hmax_in, Hmin, Hmax.
    split; [transitivity y; [apply Hmin|apply Hmax]; rewrite E; left|].
    split; [by apply elem_of_years|]. split; [by apply elem_of_years|].
    intros r z Hr Hz.
    assert (z ∈ dropna (year_added <$> df)) as Hin by (apply elem_of_years; eauto).
    specialize (Hmin z Hin). specialize (Hmax z Hin). split; [done|].
    rewrite Hz. simpl. apply andb_true_iff. by rewrite !Z.leb_le.
Qed.

(** X5.  When every row of the file lost its date the clean frame is empty
    and the script stops at the year slider with [ValueError]; with at least
    one clean record the slider gets its two ends. *)
Theorem year_slider_range_load_data `{DateParser} csv :
  (load_data csv = [] → year_slider_range (load_data csv) = Raise ValueError)
  ∧ (load_data csv ≠ [] → ∃ lo hi, year_slider_range (load_data csv) = Ok (lo, hi)).
Proof.
  split.
  - by intros ->.
  - intros Hne.
    destruct (year_slider_range (load_data csv)) as [[lo hi]|e] eqn:E; [by eauto|].
    exfalso. unfold year_slider_range, series_min, series_max in E.
    destruct (dropna (year_added <$> load_data csv)) as [|y ys] eqn:Ey; [|done].
    destruct (load_data csv) as [|r df] eqn:Eload; [done|].
    assert (r ∈ load_data csv) as Hr by (rewrite Eload; left).
    pose proof Hr as (j & i & x & d & _ & _ & ->)%elem_of_load_data.
    assert (ts_year d ∈ dropna (year_added <$> load_data csv)) as Hin.
    { apply elem_of_years. eauto. }
    rewrite Eload, Ey in Hin. by apply elem_of_nil in Hin.
Qed.

(** X6.  The selection the sidebar starts with never restricts by type: the
    default of the type filter holds every type of the frame, NaN included.
    The first view is exactly the records added from 2010 to 2020 in one of
    the default countries. *)
Theorem default_filter_spec {sort : CountSort} df :
  (∀ r, r ∈ df → isin (type_options df) (type r) = true)
  ∧ (∀ r, r ∈ df_filtered (default_filter df) df ↔
        r ∈ df
        ∧ (∃ y, year_added r = Some y ∧ 2010 ≤ y ≤ 2020)
        ∧ country r ∈ country_default df).
Proof.
  assert (∀ r, r ∈ df → type r ∈ type_options df) as Hty.
  { intros r Hr. apply elem_of_unique. by apply list_elem_of_fmap_2. }
  split.
  - intros r Hr. by apply bool_decide_eq_true, Hty.
  - intros r. unfold df_filtered. rewrite list_elem_of_filter, keeps_spec. simpl.
    naive_solver.
Qed.

Lemma length_value_counts {sort : CountSort} {K} `{EqDecision K} (col : list K) :
  length (value_counts col) = length (unique col).
Proof. by rewrite value_counts_perm, length_fmap. Qed.

(** X7.  The countries on offer.  The default selection is the beginning of
    the list of options; the options are distinct countries of the frame,
    as many as the frame has, up to 15 (5 for the default).  When the frame
    has more than 15 countries, the records of the others pass no selection
    made from the options. *)
Theorem country_options_spec {sort : CountSort} df :
  country_default df `prefix_of` country_options df
  ∧ length (country_options df) = (15 `min` length (unique (country <$> df)))%nat
  ∧ length (country_default df) = (5 `min` length (unique (country <$> df)))%nat
  ∧ NoDup (country_options df)
  ∧ (∀ c, c ∈ country_options df → ∃ r, r ∈ df ∧ country r = c)
  ∧ ((length (unique (country <$> df)) ≤ 15)%nat →
       ∀ r, r ∈ df → country r ∈ country_options df)
  ∧ (∀ spec r, country_filter spec ⊆ country_options df →
       r ∈ df → country r ∉ country_options df → r ∉ df_filtered spec df).
Proof.
  unfold country_options, country_default, head.
  split.
  { rewrite <-(Nat.min_l 5 15), <-take_take, fmap_take by lia.
    apply prefix_take. }
  split; [by rewrite length_fmap, length_take, length_value_counts|].
  split; [by rewrite length_fmap, length_take, length_value_counts|].
  split.
  { eapply sublist_NoDup; [apply NoDup_value_counts|].
    apply fmap_sublist, sublist_take. }
  split.
  { intros c ([k n] & -> & Hin)%list_elem_of_fmap.
    eapply elem_of_sublist in Hin; [|apply sublist_take].
    apply elem_of_value_counts in Hin as [Hk _].
    apply list_elem_of_fmap in Hk as (r & -> & Hr). eauto. }
  split.
  { intros Hlen r Hr. rewrite take_ge by (by rewrite length_value_counts).
    apply list_elem_of_fmap. exists (country r, occurrences (country r) (country <$> df)).
    split; [done|]. apply elem_of_value_counts. split; [|done].
    by apply list_elem_of_fmap_2. }
  intros spec r Hsub Hr Hout Hin.
  apply list_elem_of_filter in Hin as [Hkeep _].
  apply keeps_spec in Hkeep as (_ & _ & Hc). by apply Hout, Hsub.
Qed.

(** ** Composing selections *)

Lemma filter_sublist_impl {A} (P Q : A → Prop)
    `{!∀ x, Decision (P x), !∀ x, Decision (Q x)} (l : list A) :
  (∀ x, P x → Q x) → filter P l `sublist_of` filter Q l.
Proof.
  intros HPQ. induction l as [|x l IH]; [done|].
  rewrite !filter_cons. repeat case_decide;
    try (by exfalso; eauto); auto using sublist_skip, sublist_cons.
Qed.

(** X8.  Widening a selection never removes a record: with a year range
    that contains the old one and with at least the old types and countries
    selected, the old filtered frame is a sublist of the new one. *)
Theorem df_filtered_monotone spec spec' df :
  (year_filter spec').1 ≤ (year_filter spec).1 →
  (year_filter spec).2 ≤ (year_filter spec').2 →
  type_filter spec ⊆ type_filter spec' →
  country_filter spec ⊆ country_filter spec' →
  df_filtered spec df `sublist_of` df_filtered spec' df.
Proof.
  intros Hlo Hhi Hty Hco. apply filter_sublist_impl. intros r.
  rewrite !keeps_spec. intros ((y & Hy & Hrange) & Ht & Hc).
  split; [exists y; split; [done|lia]|]. split; [by apply Hty|by apply Hco].
Qed.

(** X9.  Two selections applied one after the other give the same frame in
    either order: the records that pass both. *)
Theorem df_filtered_comm spec1 spec2 df :
  df_filtered spec1 (df_filtered spec2 df) = df_filtered spec2 (df_filtered spec1 df)
  ∧ ∀ r, r ∈ df_filtered spec1 (df_filtered spec2 df) ↔
         r ∈ df_filtered spec1 df ∧ r ∈ df_filtered spec2 df.
Proof.
  unfold df_filtered. split.
  - rewrite !list_filter_filter. apply list_filter_iff. naive_solver.
  - intros r. rewrite !list_elem_of_filter. naive_solver.
Qed.

(** ** The overview numbers and the unsorted tables *)

Lemma length_filter_disjoint {A} (P Q : A → Prop)
    `{!∀ x, Decision (P x), !∀ x, Decision (Q x)} (l : list A) :
  (∀ x, P x → Q x → False) →
  (length (filter P l) + length (filter Q l) ≤ length l)%nat
  ∧ ((length (filter P l) + length (filter Q l) = length l)%nat
     ↔ ∀ x, x ∈ l → P x ∨ Q x).
Proof.
  intros Hdisj. induction l as [|x l [IHle IHeq]].
  - split; [done|]. split; [by intros _ x ?%elem_of_nil|done].
  - rewrite !filter_cons.
    destruct (decide (P x)) as [HP|HP], (decide (Q x)) as [HQ|HQ]; simpl;
      try (by exfalso; eauto).
    + split; [lia|]. split.
      * intros Hlen y [->|Hy]%elem_of_cons; [auto|]. apply IHeq; [lia|done].
      * intros Hl. assert (∀ y, y ∈ l → P y ∨ Q y) as Hl'%IHeq; [|lia].
        intros y Hy. apply Hl. by right.
    + split; [lia|]. split.
      * intros Hlen y [->|Hy]%elem_of_cons; [auto|]. apply IHeq; [lia|done].
      * intros Hl. assert (∀ y, y ∈ l → P y ∨ Q y) as Hl'%IHeq; [|lia].
        intros y Hy. apply Hl. by right.
    + split; [lia|]. split; [lia|].
      intros Hl. destruct (Hl x) as [?|?]; [left|done..].
Qed.

Lemma unique_nil_inv {K} `{EqDecision K} (col : list K) : unique col = [] → col = [].
Proof. by destruct col. Qed.

(** X10.  The overview numbers.  Movies and TV shows together never exceed
    the total, and make up the total exactly when every record is a movie or
    a TV show; the number of countries is at most the total, is zero only
    for the empty frame, and after filtering is at most the number of
    selected countries. *)
Theorem kpis_spec df :
  (n_movies (kpis df) + n_tv_shows (kpis df) ≤ total_titles (kpis df))%nat
  ∧ ((n_movies (kpis df) + n_tv_shows (kpis df) = total_titles (kpis df))%nat
     ↔ ∀ r, r ∈ df → type r = Some "Movie" ∨ type r = Some "TV Show")
  ∧ (n_countries (kpis df) ≤ total_titles (kpis df))%nat
  ∧ (n_countries (kpis df) = 0%nat ↔ df = [])
  ∧ (∀ spec,
       (n_countries (kpis (df_filtered spec df)) ≤ length (country_filter spec))%nat).
Proof.
  simpl.
  destruct (length_filter_disjoint
              (λ r, type r = Some "Movie") (λ r, type r = Some "TV Show") df)
    as [Hle Heq]; [by intros r -> ?|].
  split; [done|]. split; [done|]. split; [|split].
  - etrans; [apply sublist_length, keep_first_sublist|]. by rewrite length_fmap.
  - split; [|by intros ->].
    intros Hlen. apply length_zero_iff_nil, unique_nil_inv in Hlen.
    by apply fmap_nil_inv in Hlen.
  - intros spec. apply submseteq_length, NoDup_submseteq; [apply NoDup_unique|].
    intros c (r & -> & Hr)%elem_of_unique%list_elem_of_fmap.
    apply list_elem_of_filter in Hr as [Hkeep _].
    by apply keeps_spec in Hkeep as (_ & _ & Hc).
Qed.

Lemma occurrences_pos_iff {K} `{EqDecision K} (k : K) col :
  (0 < occurrences k col)%nat ↔ k ∈ col.
Proof.
  split; [|apply occurrences_pos]. unfold occurrences. intros Hpos.
  destruct (filter (λ y, y = k) col) as [|y l] eqn:E; [simpl in Hpos; lia|].
  assert (y ∈ filter (λ y, y = k) col) as [-> ?]%list_elem_of_filter
    by (rewrite E; left).
  done.
Qed.

Lemma occurrences_omap {A K} `{EqDecision K} (f : A → option K) k (l : list A) :
  occurrences k (omap f l) = length (filter (λ x, f x = Some k) l).
Proof.
  unfold occurrences. induction l as [|x l IH]; [done|]. csimpl.
  rewrite filter_cons. destruct (f x) as [k'|] eqn:E.
  - rewrite filter_cons. repeat case_decide; simplify_eq/=; by rewrite IH.
  - case_decide; [done|]. apply IH.
Qed.

Lemma length_omap {A K} (f : A → option K) (l : list A) :
  length (omap f l) = length (filter (λ x, is_Some (f x)) l).
Proof.
  induction l as [|x l IH]; [done|]. csimpl. rewrite filter_cons.
  destruct (f x) as [k|] eqn:E.
  - rewrite decide_True by by eexists. simpl. by rewrite IH.
  - rewrite decide_False by apply is_Some_None. apply IH.
Qed.

Lemma dropna_fmap {A K} (f : A → option K) (l : list A) :
  dropna (f <$> l) = omap f l.
Proof.
  unfold dropna. induction l as [|x l IH]; [done|]. csimpl.
  destruct (f x); simpl; by rewrite IH.
Qed.

(** X11.  The type table counts every record that has a type, under that
    type: an entry holds the number of records of its type and no entry is
    zero, the counts add up to the number of records with a type, and the
    entry for movies is the overview's number of movies. *)
Theorem type_counts_spec {sort : CountSort} df :
  sum_list (snd <$> type_counts df) = length (filter (λ r, is_Some (type r)) df)
  ∧ (∀ t c, (t, c) ∈ type_counts df ↔
        c = length (filter (λ r, type r = Some t) df) ∧ (0 < c)%nat)
  ∧ NoDup (fst <$> type_counts df)
  ∧ ((0 < n_movies (kpis df))%nat →
       ("Movie", n_movies (kpis df)) ∈ type_counts df).
Proof.
  unfold type_counts. rewrite dropna_fmap.
  assert (∀ t c, (t, c) ∈ value_counts (omap type df) ↔
            c = length (filter (λ r, type r = Some t) df) ∧ (0 < c)%nat) as Helem.
  { intros t c. rewrite elem_of_value_counts, <-occurrences_pos_iff, occurrences_omap.
    naive_solver. }
  split; [by rewrite sum_value_counts, length_omap|]. split; [done|].
  split; [apply NoDup_value_counts|].
  intros Hpos. by apply Helem.
Qed.

(** X12.  The rating table loses no record: it has one entry per rating of
    the frame, each with the number of records of that rating, its counts
    add up to the number of records, and they never increase along the
    table. *)
Theorem rating_counts_spec {sort : CountSort} df :
  sum_list (snd <$> rating_counts df) = length df
  ∧ length (rating_counts df) = length (unique (rating <$> df))
  ∧ NoDup (fst <$> rating_counts df)
  ∧ (∀ r, r ∈ df →
       (rating r, length (filter (λ r', rating r' = rating r) df))
         ∈ rating_counts df)
  ∧ by_count_descending (rating_counts df).
Proof.
  unfold rating_counts.
  split; [by rewrite sum_value_counts, length_fmap|].
  split; [apply length_value_counts|]. split; [apply NoDup_value_counts|].
  split; [|apply sorted_descending, value_counts_sorted].
  intros r Hr. rewrite <-occurrences_fmap. apply elem_of_value_counts.
  split; [by apply list_elem_of_fmap_2|done].
Qed.

(** ** The trend table *)

Lemma key_leb_spec a b :
  key_leb a b = true ↔ a.1 < b.1 ∨ (a.1 = b.1 ∧ String.le a.2 b.2).
Proof.
  unfold key_leb, String.le.
  rewrite orb_true_iff, andb_true_iff, Z.ltb_lt, Z.eqb_eq, Is_true_true. done.
Qed.

Lemma key_lt_trans a b c : key_lt a b → key_lt b c → key_lt a c.
Proof.
  destruct a as [y1 t1], b as [y2 t2], c as [y3 t3].
  intros [H12%key_leb_spec Hne12] [H23%key_leb_spec Hne23]. simpl in *.
  split.
  - apply key_leb_spec. simpl.
    destruct H12 as [?|[-> H12]], H23 as [?|[-> H23]]; try (left; lia).
    right. split; [done|]. by etrans.
  - intros [= -> ->].
    destruct H12 as [?|[-> H12]], H23 as [?|[? H23]]; try lia.
    apply Hne12. f_equal. by apply (anti_symm String.le).
Qed.

Lemma key_lt_total a b : key_leb a b = false → a ≠ b → key_lt b a.
Proof.
  destruct a as [y1 t1], b as [y2 t2]. intros Hnle Hne. split; [|done].
  apply key_leb_spec. simpl.
  destruct (decide (y2 < y1)); [by left|right].
  assert (¬ (y1 < y2 ∨ y1 = y2 ∧ String.le t1 t2)) as Hn.
  { rewrite <-(key_leb_spec (y1, t1) (y2, t2)). by rewrite Hnle. }
  assert (y2 = y1) as -> by lia. split; [done|].
  destruct (total String.le t1 t2); [|done]. exfalso. apply Hn. by right.
Qed.

Lemma elem_of_insert_key k l x : x ∈ insert_key k l ↔ x = k ∨ x ∈ l.
Proof.
  induction l as [|a l IH]; simpl; [set_solver|].
  repeat case_decide; repeat case_match; set_solver.
Qed.

Lemma insert_key_sorted k l :
  StronglySorted key_lt l → StronglySorted key_lt (insert_key k l).
Proof.
  induction l as [|a l IH]; simpl; [by repeat constructor|].
  intros Hl. pose proof Hl as [Hall Hl']%StronglySorted_cons.
  case_decide as Hka; [done|]. destruct (key_leb k a) eqn:E.
  - apply StronglySorted_cons. split; [|done].
    apply Forall_cons. split; [done|]. rewrite Forall_forall in *.
    intros x Hx. eapply key_lt_trans; [|by apply Hall]. done.
  - apply StronglySorted_cons. split; [|by apply IH].
    rewrite Forall_forall in *. intros x [->|Hx]%elem_of_insert_key.
    + by apply key_lt_total.
    + by apply Hall.
Qed.

Lemma sorted_keys_sorted l : StronglySorted key_lt (sorted_keys l).
Proof. induction l as [|k l IH]; [constructor|]. by apply insert_key_sorted. Qed.

Lemma elem_of_sorted_keys l x : x ∈ sorted_keys l ↔ x ∈ l.
Proof.
  induction l as [|k l IH]; [done|]. simpl.
  rewrite elem_of_insert_key, IH. set_solver.
Qed.

Lemma StronglySorted_NoDup {A} (R : relation A) (l : list A) :
  (∀ x, ¬ R x x) → StronglySorted R l → NoDup l.
Proof.
  intros Hirr. induction 1 as [|x l _ IH Hall]; constructor; [|done].
  intros Hx. rewrite Forall_forall in Hall. by eapply Hirr, Hall.
Qed.

Lemma StronglySorted_lookup {A} (R : relation A) (l : list A) i j a b :
  StronglySorted R l → (i < j)%nat → l !! i = Some a → l !! j = Some b → R a b.
Proof.
  intros Hl Hij Hi Hj. rewrite <-(take_drop j l) in Hl.
  eapply StronglySorted_app_1_elem_of; [done|..].
  - apply elem_of_take. eauto.
  - apply list_elem_of_lookup. exists 0%nat. by rewrite lookup_drop, Nat.add_0_r.
Qed.

Lemma trend_keys_spec df y t :
  occurrences (y, t) (trend_keys df)
  = length (filter (λ r, year_added r = Some y ∧ type r = Some t) df).
Proof.
  unfold trend_keys. rewrite occurrences_omap. f_equal.
  apply list_filter_iff. intros r.
  destruct (year_added r), (type r); simpl; naive_solver.
Qed.

(** X13.  The trend table has one row per pair (year, type) that occurs in
    the frame, with the number of records of that year and type: no row has
    count zero and a pair without records has no row.  The rows are in
    ascending order of the year, and of the type within a year, so no pair
    comes twice; the counts add up to the number of records that have both
    a year and a type. *)
Theorem trend_spec df :
  (∀ y t c, (y, t, c) ∈ trend df ↔
      c = length (filter (λ r, year_added r = Some y ∧ type r = Some t) df)
      ∧ (0 < c)%nat)
  ∧ (∀ i j y1 t1 c1 y2 t2 c2,
       (i < j)%nat →
       trend df !! i = Some (y1, t1, c1) → trend df !! j = Some (y2, t2, c2) →
       y1 ≤ y2 ∧ (y1 = y2 → String.le t1 t2 ∧ t1 ≠ t2))
  ∧ NoDup (fst <$> trend df)
  ∧ sum_list (snd <$> trend df)
    = length (filter (λ r, is_Some (year_added r) ∧ is_Some (type r)) df).
Proof.
  assert (fst <$> trend df = sorted_keys (trend_keys df)) as Hkeys.
  { unfold trend. rewrite <-list_fmap_compose.
    by rewrite (list_fmap_ext _ id (sorted_keys (trend_keys df))), list_fmap_id. }
  assert (NoDup (sorted_keys (trend_keys df))) as Hnd.
  { eapply StronglySorted_NoDup; [|apply sorted_keys_sorted]. by intros x [_ ?]. }
  split; [|split; [|split]].
  - intros y t c. unfold trend. rewrite list_elem_of_fmap.
    setoid_rewrite elem_of_sorted_keys. rewrite <-trend_keys_spec. split.
    + intros (k & [= <- ->] & Hk). split; [done|]. by apply occurrences_pos_iff.
    + intros [-> Hpos%occurrences_pos_iff]. by exists (y, t).
  - intros i j y1 t1 c1 y2 t2 c2 Hij Hi Hj.
    assert (key_lt (y1, t1) (y2, t2)) as [Hle%key_leb_spec Hne].
    { apply (StronglySorted_lookup _ (fst <$> trend df) i j); [|done|..].
      - rewrite Hkeys. apply sorted_keys_sorted.
      - by rewrite list_lookup_fmap, Hi.
      - by rewrite list_lookup_fmap, Hj. }
    simpl in Hle. split; [lia|]. intros ->.
    destruct Hle as [?|[_ Hle]]; [lia|]. split; [done|]. congruence.
  - by rewrite Hkeys.
  - unfold trend. rewrite <-list_fmap_compose.
    rewrite (list_fmap_ext _ (λ k, occurrences k (trend_keys df))
               (sorted_keys (trend_keys df))) by done.
    rewrite (sum_occurrences _ _ Hnd), filter_all.
    + unfold trend_keys. rewrite length_omap. f_equal.
      apply list_filter_iff. intros r.
      destruct (year_added r), (type r); simpl;
        split; try (intros [??]); try (intros [[??] [??]]); try done;
        try (by split; eexists); by eexists.
    + apply Forall_forall. intros k Hk. by apply elem_of_sorted_keys.
Qed.

(** ** Tables of a filtered frame *)

(** X14.  The tables stay inside the selection: the country table lists
    only selected countries, the type table only selected types, the trend
    table only years of the range and selected types.  When movies are not
    selected the number of movies is zero and the minutes column is empty,
    and likewise for TV shows and the season table: neither conversion can
    raise then. *)
Theorem tables_respect_selection {sort : CountSort} spec df n :
  (∀ k c, (k, c) ∈ topCountries n (df_filtered spec df) →
     k ∈ country_filter spec)
  ∧ (∀ t c, (t, c) ∈ type_counts (df_filtered spec df) →
       Some t ∈ type_filter spec)
  ∧ (∀ y t c, (y, t, c) ∈ trend (df_filtered spec df) →
       (year_filter spec).1 ≤ y ≤ (year_filter spec).2
       ∧ Some t ∈ type_filter spec)
  ∧ (Some "Movie" ∉ type_filter spec →
       n_movies (kpis (df_filtered spec df)) = 0%nat
       ∧ movies_minutes (df_filtered spec df) = Ok [])
  ∧ (Some "TV Show" ∉ type_filter spec →
       n_tv_shows (kpis (df_filtered spec df)) = 0%nat
       ∧ season_counts (df_filtered spec df) = Ok []).
Proof.
  assert (∀ r, r ∈ df_filtered spec df →
            (∃ y, year_added r = Some y
                  ∧ (year_filter spec).1 ≤ y ≤ (year_filter spec).2)
            ∧ type r ∈ type_filter spec ∧ country r ∈ country_filter spec) as Hsel.
  { intros r [Hkeep _]%list_elem_of_filter. by apply keeps_spec. }
  assert (∀ t, Some t ∉ type_filter spec →
            filter (λ r, type r = Some t) (df_filtered spec df) = []) as Hnone.
  { intros t Ht. apply filter_none, Forall_forall. intros r Hr Heq.
    destruct (Hsel r Hr) as (_ & Hty & _). by rewrite Heq in Hty. }
  split; [|split; [|split; [|split]]].
  - intros k c Hin. unfold topCountries in Hin.
    eapply elem_of_sublist in Hin; [|apply sublist_take].
    apply elem_of_value_counts in Hin as [(r & -> & Hr)%list_elem_of_fmap _].
    by apply Hsel.
  - intros t c Hin. unfold type_counts in Hin.
    apply elem_of_value_counts in Hin as [Hin _].
    rewrite dropna_fmap in Hin. apply list_elem_of_omap in Hin as (r & Hr & Heq).
    rewrite <-Heq. by apply Hsel.
  - intros y t c Hin. unfold trend in Hin.
    apply list_elem_of_fmap in Hin as (k & [= <- _] & Hk).
    apply (proj1 (elem_of_sorted_keys _ _)) in Hk.
    apply list_elem_of_omap in Hk as (r & Hr & Heq).
    destruct (Hsel r Hr) as ((y' & Hy & Hrange) & Hty & _).
    rewrite Hy in Heq. simpl in Heq.
    destruct (type r) as [t'|] eqn:Et; simplify_eq/=. done.
  - intros Ht. simpl. unfold movies_minutes, movies. by rewrite (Hnone _ Ht).
  - intros Ht. simpl. unfold season_counts, tv_seasons, tv_shows.
    rewrite (Hnone _ Ht). simpl. by rewrite value_counts_nil.
Qed.

(** ** Durations with another unit or a sign *)

Lemma rstrip_app_keep s t :
  Py.rstrip t = t → t ≠ "" → Py.rstrip (s +:+ t) = s +:+ t.
Proof.
  intros Ht Hne. induction s as [|c s IH]; [done|].
  change (String c s +:+ t) with (String c (s +:+ t)). simpl. rewrite IH.
  destruct (s +:+ t) eqn:E; [|done]. by destruct s, t.
Qed.

Lemma literal_digits_stop d c t b :
  Py.only_digits d = true → Py.is_digit c = false → Ascii.eqb c "_" = false →
  Py.literal_digits (d +:+ String c t) b = None.
Proof.
  intros Hd Hc Hu. revert b. induction d as [|a d IH]; intros b.
  - simpl. by rewrite Hc, Hu.
  - apply andb_true_iff in Hd as [Ha Hd].
    change (String a d +:+ String c t) with (String a (d +:+ String c t)).
    simpl. by rewrite Ha, IH.
Qed.

(** [int] rejects a number followed by text that starts with a character
    which is neither a digit nor an underscore. *)
Lemma int_trailing_text n c t :
  Py.is_digit c = false → Ascii.eqb c "_" = false →
  Py.rstrip (String c t) = String c t →
  Py.int (Py.str_of_N n +:+ String c t) = Raise ValueError.
Proof.
  intros Hc Hu Ht.
  pose proof (str_of_N_digits n) as Hd. pose proof (str_of_N_nonempty n) as Hne.
  destruct (Py.str_of_N n) as [|a d] eqn:E; [done|].
  pose proof Hd as [Ha Hd']%andb_true_iff.
  unfold Py.int, Py.strip.
  change (String a d +:+ String c t) with (String a (d +:+ String c t)).
  simpl Py.lstrip. rewrite (digit_not_space a Ha).
  change (String a (d +:+ String c t)) with (String a d +:+ String c t).
  rewrite rstrip_app_keep by done.
  change (String a d +:+ String c t) with (String a (d +:+ String c t)).
  destruct (digit_not_sign a Ha) as [-> ->].
  change (String a (d +:+ String c t)) with (String a d +:+ String c t).
  by rewrite literal_digits_stop.
Qed.

Lemma number_text_not_Unknown n t : Py.str_of_N n +:+ t ≠ "Unknown".
Proof.
  pose proof (str_of_N_digits n) as Hd. pose proof (str_of_N_nonempty n) as Hne.
  destruct (Py.str_of_N n) as [|a d]; [done|].
  apply andb_true_iff in Hd as [Ha _]. intros [= -> _]. done.
Qed.

(** X15.  A duration with the unit of the other kind of title cannot be
    converted: the minutes of [<N> Season] and [<N> Seasons] and the seasons
    of [<N> min] raise [ValueError], and one movie with such a duration
    makes the whole minutes column raise (one such show, the season
    column). *)
Theorem wrong_unit_raises :
  (∀ n, durationMinutes (Py.str_of_N n +:+ " Season") = Raise ValueError
        ∧ durationMinutes (Py.str_of_N n +:+ " Seasons") = Raise ValueError
        ∧ seasons (Py.str_of_N n +:+ " min") = Raise ValueError)
  ∧ (∀ df r n,
       r ∈ df → type r = Some "Movie" →
       duration r = Py.str_of_N n +:+ " Season"
       ∨ duration r = Py.str_of_N n +:+ " Seasons" →
       ∃ e, movies_minutes df = Raise e)
  ∧ (∀ (sort : CountSort) df r n,
       r ∈ df → type r = Some "TV Show" →
       duration r = Py.str_of_N n +:+ " min" →
       ∃ e, season_counts df = Raise e).
Proof.
  assert (∀ n, durationMinutes (Py.str_of_N n +:+ " Season") = Raise ValueError
        ∧ durationMinutes (Py.str_of_N n +:+ " Seasons") = Raise ValueError
        ∧ seasons (Py.str_of_N n +:+ " min") = Raise ValueError) as Hunit.
  { intros n. unfold durationMinutes, seasons.
    rewrite !delete_digits by (done || apply str_of_N_digits).
    change (Py.delete " min" " Season") with " Season".
    change (Py.delete " min" " Seasons") with " Seasons".
    change (Py.delete "s" (Py.delete " Season" " min")) with " min".
    unfold replace_unknown.
    rewrite !decide_False by apply number_text_not_Unknown.
    simpl. by rewrite !int_trailing_text. }
  split; [done|]. split.
  - intros df r n Hr Hty Hdur.
    apply (map_result_Raise (durationMinutes ∘ duration) _ r ValueError).
    + by apply list_elem_of_filter.
    + simpl. destruct Hdur as [-> | ->]; apply Hunit.
  - intros sort df r n Hr Hty Hdur. unfold season_counts, tv_seasons.
    destruct (map_result_Raise (seasons ∘ duration) (tv_shows df) r ValueError)
      as [e ->]; [by apply list_elem_of_filter|..].
    + simpl. rewrite Hdur. apply Hunit.
    + by eexists.
Qed.

(** X16.  The conversion does not check the sign: the minutes of [-<N> min]
    are the negative number [-N], for [N] from 1 to 2^63. *)
Theorem durationMinutes_negative (n : N) :
  (0 < n ≤ 2 ^ 63)%N →
  durationMinutes ("-" +:+ Py.str_of_N n +:+ " min") = Ok (- Z.of_N n).
Proof.
  intros Hn.
  pose proof (str_of_N_digits n) as Hd. pose proof (str_of_N_nonempty n) as Hne.
  unfold durationMinutes.
  change ("-" +:+ Py.str_of_N n +:+ " min")
    with (String "-" (Py.str_of_N n +:+ " min")).
  change (Py.delete " min" (String "-" (Py.str_of_N n +:+ " min")))
    with (String "-" (Py.delete " min" (Py.str_of_N n +:+ " min"))).
  rewrite delete_digits by done. change (Py.delete " min" " min") with "".
  rewrite append_empty_r. unfold replace_unknown. rewrite decide_False by done.
  simpl astype_int. unfold Py.int, Py.strip. simpl Py.lstrip.
  change (String "-" (Py.str_of_N n)) with ("-" +:+ Py.str_of_N n).
  rewrite rstrip_app_keep by (done || by apply rstrip_digits).
  change ("-" +:+ Py.str_of_N n) with (String "-" (Py.str_of_N n)).
  cbv beta iota zeta. change (Ascii.eqb "-" "-") with true. cbv beta iota zeta.
  destruct (Py.str_of_N n) as [|a d] eqn:E; [done|].
  pose proof Hd as [Ha Hd']%andb_true_iff. fold Py.only_digits in Hd'.
  simpl Py.literal_digits. rewrite Ha, literal_digits_digits by done. simpl.
  unfold Py.digits_value. rewrite <-E. unfold Py.str_of_N.
  rewrite NilEmpty.usu. simpl. rewrite DecimalN.Unsigned.of_to.
  apply int64_in_range. lia.
Qed.

(** ** Genre labels *)

Lemma lstrip_no_char c s :
  string_contains c s = false → string_contains c (Py.lstrip s) = false.
Proof.
  induction s as [|a s IH]; [done|]. simpl.
  intros [Ha Hs]%orb_false_iff. destruct (Py.is_space a); [by apply IH|].
  simpl. by rewrite Ha, Hs.
Qed.

Lemma rstrip_no_char c s :
  string_contains c s = false → string_contains c (Py.rstrip s) = false.
Proof.
  induction s as [|a s IH]; [done|]. simpl.
  intros [Ha Hs]%orb_false_iff. specialize (IH Hs).
  destruct (Py.rstrip s).
  - destruct (Py.is_space a); [done|]. simpl. by rewrite Ha.
  - simpl in *. by rewrite Ha, IH.
Qed.

Lemma rstrip_idem s : Py.rstrip (Py.rstrip s) = Py.rstrip s.
Proof.
  induction s as [|a s IH]; [done|]. simpl.
  destruct (Py.rstrip s) as [|b r] eqn:E.
  - destruct (Py.is_space a) eqn:Ea; [done|]. simpl. by rewrite Ea.
  - simpl in *. by rewrite IH.
Qed.

Lemma lstrip_rstrip_lstrip s :
  Py.lstrip (Py.rstrip (Py.lstrip s)) = Py.rstrip (Py.lstrip s).
Proof.
  assert (∀ u, match u with String a _ => Py.is_space a = false | "" => True end →
               Py.lstrip (Py.rstrip u) = Py.rstrip u) as Hclean.
  { intros [|a u] Ha; [done|]. simpl.
    destruct (Py.rstrip u); rewrite ?Ha; simpl; by rewrite Ha. }
  apply Hclean. induction s as [|a s IH]; [done|]. simpl.
  by destruct (Py.is_space a) eqn:Ea.
Qed.

Lemma strip_idem s : Py.strip (Py.strip s) = Py.strip s.
Proof. unfold Py.strip. by rewrite lstrip_rstrip_lstrip, rstrip_idem. Qed.

(** X17.  A label of the genre table holds no comma and has no whitespace
    at either end: stripping it again changes nothing. *)
Theorem genre_labels_clean {sort : CountSort} n df g c :
  (g, c) ∈ topGenres n df →
  string_contains "," g = false ∧ Py.strip g = g.
Proof.
  intros Hin. unfold topGenres in Hin.
  eapply elem_of_sublist in Hin; [|apply sublist_take].
  apply elem_of_value_counts in Hin as [Hg _]. rewrite dropna_genres in Hg.
  apply list_elem_of_bind in Hg as (r & Hg & _).
  destruct (listed_in r) as [s|]; [|by apply elem_of_nil in Hg].
  apply list_elem_of_fmap in Hg as (t & -> & Ht). split.
  - apply rstrip_no_char, lstrip_no_char. by eapply split_comma_no_comma.
  - apply strip_idem.
Qed.

(** ** The further properties on concrete frames *)

Lemma load_data_no_marker_witness :
  namibia_record ∈ load_data namibia_csv
  ∧ (country namibia_record ∉ STR_NA_VALUES)
  ∧ (rating namibia_record ∉ STR_NA_VALUES)
  ∧ (duration namibia_record ∉ STR_NA_VALUES)
  ∧ (∀ s, type namibia_record = Some s → s ∉ STR_NA_VALUES)
  ∧ (∀ s, listed_in namibia_record = Some s → s ∉ STR_NA_VALUES)
  ∧ country namibia_record ≠ "" ∧ rating namibia_record ≠ ""
  ∧ duration namibia_record ≠ "".
Proof.
  split; [vm_compute; left|].
  apply (load_data_no_marker namibia_csv namibia_record). vm_compute; left.
Defined.

Lemma year_slider_range_load_data_witness :
  load_data scenario_csv ≠ []
  ∧ ∃ lo hi, year_slider_range (load_data scenario_csv) = Ok (lo, hi).
Proof.
  assert (load_data scenario_csv ≠ []) as Hne by (vm_compute; discriminate).
  split; [exact Hne|].
  apply (proj2 (@year_slider_range_load_data iso_parser scenario_csv) Hne).
Defined.

Lemma df_filtered_monotone_witness :
  ((year_filter all_2019).1 ≤ (year_filter us_movies_2019).1
   ∧ (year_filter us_movies_2019).2 ≤ (year_filter all_2019).2
   ∧ type_filter us_movies_2019 ⊆ type_filter all_2019
   ∧ country_filter us_movies_2019 ⊆ country_filter all_2019)
  ∧ df_filtered us_movies_2019 countries_frame
      `sublist_of` df_filtered all_2019 countries_frame.
Proof.
  assert (type_filter us_movies_2019 ⊆ type_filter all_2019) as Hty
    by (by apply (bool_decide_unpack _)).
  assert (country_filter us_movies_2019 ⊆ country_filter all_2019) as Hco
    by (by apply (bool_decide_unpack _)).
  split; [split; [simpl; lia|split; [simpl; lia|done]]|].
  apply (df_filtered_monotone us_movies_2019 all_2019 countries_frame);
    [simpl; lia|simpl; lia|exact Hty|exact Hco].
Defined.

Lemma durationMinutes_negative_witness :
  (0 < 5 ≤ 2 ^ 63)%N ∧ durationMinutes "-5 min" = Ok (-5).
Proof.
  assert (0 < 5 ≤ 2 ^ 63)%N as Hn by (split; [reflexivity|discriminate]).
  split; [exact Hn|]. apply (durationMinutes_negative 5%N Hn).
Defined.

Lemma genre_labels_clean_witness :
  ("Dramas", 13%nat) ∈ topGenres (sort := first_seen_sort) 15 countries_frame
  ∧ string_contains "," "Dramas" = false ∧ Py.strip "Dramas" = "Dramas".
Proof.
  assert (("Dramas", 13%nat) ∈ topGenres (sort := first_seen_sort) 15 countries_frame)
    as Hin by (vm_compute; left).
  split; [exact Hin|].
  apply (genre_labels_clean (sort := first_seen_sort) 15 countries_frame
           "Dramas" 13%nat Hin).
Defined.

Lemma wrong_unit_raises_witness :
  record 3 "Movie" "US" "2 Seasons" None
    ∈ [record 3 "Movie" "US" "2 Seasons" None]
  ∧ ∃ e, movies_minutes [record 3 "Movie" "US" "2 Seasons" None] = Raise e.
Proof.
  split; [left|].
  apply (proj1 (proj2 wrong_unit_raises)
           [record 3 "Movie" "US" "2 Seasons" None]
           (record 3 "Movie" "US" "2 Seasons" None) 2%N);
    [left|reflexivity|right; reflexivity].
Defined.

Lemma tables_respect_selection_witness :
  (Some "TV Show" ∉ type_filter us_movies_2019)
  ∧ n_tv_shows (kpis (df_filtered us_movies_2019 shows_frame)) = 0%nat
  ∧ season_counts (sort := first_seen_sort)
      (df_filtered us_movies_2019 shows_frame) = Ok [].
Proof.
  assert (Some "TV Show" ∉ type_filter us_movies_2019) as Hty
    by (by apply (bool_decide_unpack _)).
  split; [exact Hty|].
  apply (proj2 (proj2 (proj2 (proj2
           (tables_respect_selection (sort := first_seen_sort)
              us_movies_2019 shows_frame 10)))) Hty).
Defined.

Lemma country_options_spec_witness :
  (length (unique (country <$> countries_frame)) ≤ 15)%nat
  ∧ ∀ r, r ∈ countries_frame →
         country r ∈ country_options (sort := first_seen_sort) countries_frame.
Proof.
  assert (length (unique (country <$> countries_frame)) ≤ 15)%nat as Hlen
    by (vm_compute; lia).
  split; [exact Hlen|].
  apply (proj1 (proj2 (proj2 (proj2 (proj2 (proj2
           (country_options_spec (sort := first_seen_sort) countries_frame))))))
           Hlen).
Defined.

Lemma year_slider_range_spec_witness :
  year_slider_range countries_frame = Ok (2019, 2019)
  ∧ 2019 ≤ 2019
  ∧ (∃ r, r ∈ countries_frame ∧ year_added r = Some 2019)
  ∧ (∃ r, r ∈ countries_frame ∧ year_added r = Some 2019)
  ∧ (∀ r y, r ∈ countries_frame → year_added r = Some y →
       2019 ≤ y ≤ 2019 ∧ between 2019 2019 (year_added r) = true).
Proof.
  split; [reflexivity|].
  apply (proj2 (year_slider_range_spec countries_frame) 2019 2019). reflexivity.
Defined.

Lemma default_filter_spec_witness :
  namibia_record ∈ [namibia_record]
  ∧ isin (type_options [namibia_record]) (type namibia_record) = true.
Proof.
  split; [left|].
  apply (proj1 (default_filter_spec (sort := first_seen_sort) [namibia_record])
           namibia_record).
  left.
Defined.

Lemma type_counts_spec_witness :
  (0 < n_movies (kpis shows_frame))%nat
  ∧ ("Movie", n_movies (kpis shows_frame))
    ∈ type_counts (sort := first_seen_sort) shows_frame.
Proof.
  assert (0 < n_movies (kpis shows_frame))%nat as Hpos by (vm_compute; lia).
  split; [exact Hpos|].
  apply (proj2 (proj2 (proj2 (type_counts_spec (sort := first_seen_sort) shows_frame)))
           Hpos).
Defined.

Lemma rating_counts_spec_witness :
  namibia_record ∈ [namibia_record]
  ∧ (rating namibia_record,
     length (filter (λ r', rating r' = rating namibia_record) [namibia_record]))
    ∈ rating_counts (sort := first_seen_sort) [namibia_record].
Proof.
  split; [left|].
  apply (proj1 (proj2 (proj2 (proj2
           (rating_counts_spec (sort := first_seen_sort) [namibia_record]))))
           namibia_record).
  left.
Defined.

Lemma trend_spec_witness :
  trend shows_frame !! 0%nat = Some (2019, "Movie", 1%nat)
  ∧ trend shows_frame !! 1%nat = Some (2019, "TV Show", 3%nat)
  ∧ 2019 ≤ 2019
  ∧ (2019 = 2019 → String.le "Movie" "TV Show" ∧ "Movie" ≠ "TV Show").
Proof.
  split; [reflexivity|]. split; [reflexivity|].
  apply (proj1 (proj2 (trend_spec shows_frame)) 0%nat 1%nat
           2019 "Movie" 1%nat 2019 "TV Show" 3%nat);
    [lia|reflexivity|reflexivity].
Defined.
